(** * Outbreak analyser: a shallow embedding of [outbreak_analyser.py]

    The script works on NumPy [float64] arrays.  The embedding idealises the
    arithmetic: every finite [float64] is a rational number, so the values
    handled by [find_affected_population] (which only divides by the cell
    size, truncates, adds, compares and sums) are modelled in [Q] and the
    functions stay executable; [calculate_distance_matrix] takes square roots
    and is modelled over the real numbers [R].  Rounding of intermediate
    results, infinities and NaN inputs are outside these two models; the
    only place where they carry IEEE special values is the division of the
    percentage computation (type [float64]).  The statements about
    [find_affected_population] name the slice indices as the code computes
    them, so that they do not depend on how an intermediate sum is rounded.

    Module [Float64] computes the slice indices of
    [find_affected_population] in binary64 arithmetic itself (the kernel's
    primitive floats), bit for bit; it shows where rounding moves an index.

    Arrays are lists: a one-dimensional array is a [list], a two-dimensional
    array is a list of rows.  Python's slicing and [int()] are modelled
    with their own semantics ([py_slice], [py_int]). *)

From Stdlib Require Import List ZArith QArith Qround Lia Bool.
From Stdlib Require Import Reals Lra.
From Stdlib Require String Ascii.
From Stdlib Require Floats.
Import ListNotations.

(** ** Python and NumPy primitives shared by both parts *)

Module Py.

(** [l[start:stop]] for a list (or along one axis of an array), step 1.
    A negative bound counts from the end of the sequence; bounds are then
    clipped to [0, len]. *)
Definition slice_index (len k : Z) : Z :=
  if (k <? 0)%Z then Z.max 0 (k + len) else Z.min k len.

Definition py_slice {A : Type} (start stop : Z) (l : list A) : list A :=
  let len := Z.of_nat (length l) in
  let s := slice_index len start in
  let e := slice_index len stop in
  firstn (Z.to_nat (e - s)) (skipn (Z.to_nat s) l).

(** [a.shape] of a two-dimensional array given as a list of rows. *)
Definition shape {A : Type} (m : list (list A)) : nat * nat :=
  (length m, match m with [] => 0%nat | row :: _ => length row end).

(** The rows of a two-dimensional array all have [shape[1]] entries. *)
Definition rectangular {A : Type} (m : list (list A)) : Prop :=
  Forall (fun row => length row = snd (shape m)) m.

End Py.

(** ** PopulationAggregator: [find_affected_population] and the percentage *)

Module Aggregation.
Import Py.
Local Open Scope Q_scope.

(** [int(x)] on a float: truncation toward zero. *)
Definition py_int (x : Q) : Z := Z.quot (Qnum x) (Zpos (Qden x)).

(** [np.sum] of a one-dimensional and of a two-dimensional array. *)
Definition np_sum1 (l : list Q) : Q := fold_right Qplus 0 l.
Definition np_sum (m : list (list Q)) : Q := np_sum1 (concat m).

(** [population_matrix[start_i:end_i, start_j:end_j]] *)
Definition slice2 (start_i end_i start_j end_j : Z) (m : list (list Q))
  : list (list Q) :=
  map (py_slice start_j end_j) (py_slice start_i end_i m).

Definition cell_size : Q := 100.

(** Lines 130-158.  The centre is the two-element array [outbreak_centre],
    given as the pair of its entries [0] and [1]. *)
Definition find_affected_population
    (population_matrix : list (list Q)) (outbreak_centre : Q * Q)
    (max_distance : Q) : Q :=
  let '(east_west_cells, north_south_cells) := shape population_matrix in
  let outbreak_centre_cells :=
    (fst outbreak_centre / cell_size, snd outbreak_centre / cell_size) in
  let east_west_range := py_int (max_distance / cell_size) in
  let north_south_range := py_int (max_distance / cell_size) in
  let start_i :=
    Z.max 0 (py_int (fst outbreak_centre_cells - inject_Z east_west_range)) in
  let end_i :=
    Z.min (Z.of_nat east_west_cells)
          (py_int (fst outbreak_centre_cells + inject_Z east_west_range + 1)) in
  let start_j :=
    Z.max 0 (py_int (snd outbreak_centre_cells - inject_Z north_south_range)) in
  let end_j :=
    Z.min (Z.of_nat north_south_cells)
          (py_int (snd outbreak_centre_cells + inject_Z north_south_range + 1)) in
  np_sum (slice2 start_i end_i start_j end_j population_matrix).

(** The four slice bounds of [find_affected_population], by axis: [c] is the
    centre coordinate on the axis, [r] the cell range, [dim] the grid
    dimension. *)
Definition start_index (c : Q) (r : Z) : Z :=
  Z.max 0 (py_int (c / cell_size - inject_Z r)).

Definition end_index (dim : nat) (c : Q) (r : Z) : Z :=
  Z.min (Z.of_nat dim) (py_int (c / cell_size + inject_Z r + 1)).

(** The half-open index range [[s, e)]. *)
Definition half_open (s e : Z) (i : Z) : bool := ((s <=? i) && (i <? e))%Z.

(** *** The percentage computation (lines 172-178)

    [affected_population] and [total_population] are [np.float64] scalars.
    NumPy's division of such scalars does not raise on a zero divisor (the
    default error state only warns): it yields an infinity or NaN.  The
    type [float64] adds these special values to the finite ones. *)
Inductive float64 : Type :=
  | Finite (q : Q)
  | PosInf
  | NegInf
  | NaN.

Definition is_finite (x : float64) : bool :=
  match x with Finite _ => true | _ => false end.

Definition is_zero (q : Q) : bool := Qeq_bool q 0.
Definition is_neg (q : Q) : bool := negb (Qle_bool 0 q).

(** [a / b] on finite [np.float64] operands. *)
Definition np_divide (a b : Q) : float64 :=
  if is_zero b then
    if is_zero a then NaN else if is_neg a then NegInf else PosInf
  else Finite (a / b).

(** [x * k] for a finite constant [k]. *)
Definition np_multiply (x : float64) (k : Q) : float64 :=
  match x with
  | Finite q => Finite (q * k)
  | NaN => NaN
  | PosInf =>
      if is_zero k then NaN else if is_neg k then NegInf else PosInf
  | NegInf =>
      if is_zero k then NaN else if is_neg k then PosInf else NegInf
  end.

Definition total_population (population_matrix : list (list Q)) : Q :=
  np_sum population_matrix.

Definition percentage_affected
    (population_matrix : list (list Q)) (outbreak_centre : Q * Q)
    (max_distance : Q) : float64 :=
  let affected_population :=
    find_affected_population population_matrix outbreak_centre max_distance in
  let total_population := total_population population_matrix in
  np_multiply (np_divide affected_population total_population) 100.

(** *** The algorithm as the specification words it

    The sum of the grid cells whose indices lie in a window, written as a
    scan over every cell of the grid together with its index. *)
Fixpoint sum_where {A : Type} (f : A -> Q) (inside : Z -> bool)
    (i : Z) (l : list A) : Q :=
  match l with
  | [] => 0
  | a :: t => (if inside i then f a else 0) + sum_where f inside (i + 1) t
  end.

(** The inclusive window [[lo, hi]] clamped to the bounds [[0, dim)]. *)
Definition clamped_window (dim : nat) (lo hi : Z) (i : Z) : bool :=
  ((lo <=? i) && (i <=? hi) && (0 <=? i) && (i <? Z.of_nat dim))%Z.

(** Cell range [r], window [[centre_cell - r, centre_cell + r]] on each
    axis with its bounds taken as grid indices (truncated toward zero, the
    specification's cell-index convention), clamped, summed. *)
Definition spec_affected_population
    (population_matrix : list (list Q)) (outbreak_centre : Q * Q)
    (max_distance : Q) : Q :=
  let r := inject_Z (py_int (max_distance / cell_size)) in
  let centre_cell_x := fst outbreak_centre / cell_size in
  let centre_cell_y := snd outbreak_centre / cell_size in
  let rows := fst (shape population_matrix) in
  let cols := snd (shape population_matrix) in
  sum_where
    (sum_where (fun v => v)
       (clamped_window cols (py_int (centre_cell_y - r))
                            (py_int (centre_cell_y + r))) 0)
    (clamped_window rows (py_int (centre_cell_x - r))
                         (py_int (centre_cell_x + r))) 0
    population_matrix.

(** The centre lies outside the area covered by the grid. *)
Definition centre_outside (population_matrix : list (list Q))
    (outbreak_centre : Q * Q) : bool :=
  let cx := fst outbreak_centre / cell_size in
  let cy := snd outbreak_centre / cell_size in
  negb (Qle_bool 0 cx)
  || Qle_bool (inject_Z (Z.of_nat (fst (shape population_matrix)))) cx
  || negb (Qle_bool 0 cy)
  || Qle_bool (inject_Z (Z.of_nat (snd (shape population_matrix)))) cy.

(** All entries of the grid are non-negative. *)
Definition non_negative (population_matrix : list (list Q)) : Prop :=
  Forall (Forall (fun v => 0 <= v)) population_matrix.

End Aggregation.

(** ** DistanceEngine and OutbreakLocator *)

Module Distances.
Import Py.
Local Open Scope R_scope.

(** Failure ([IndexError], [ValueError]) is [None]. *)
Definition bind {A B : Type} (x : option A) (f : A -> option B) : option B :=
  match x with Some a => f a | None => None end.

Notation "x <- e ;; k" := (bind e (fun x => k))
  (at level 61, e at next level, right associativity).

(** [a[:, k]]: column [k] of every row; fails when a row has no column [k]. *)
Fixpoint column (k : nat) (a : list (list R)) : option (list R) :=
  match a with
  | [] => Some []
  | row :: rest =>
      v <- nth_error row k ;;
      vs <- column k rest ;;
      Some (v :: vs)
  end.

(** [u.reshape(-1, 1) - v]: broadcasting a column against a row. *)
Definition outer_sub (u v : list R) : list (list R) :=
  map (fun a => map (fun b => a - b) v) u.

(** Element-wise operations on two-dimensional arrays. *)
Definition ew_map (f : R -> R) (m : list (list R)) : list (list R) :=
  map (map f) m.

Fixpoint zip_with {A : Type} (f : A -> A -> A) (u v : list A) : list A :=
  match u, v with
  | a :: u', b :: v' => f a b :: zip_with f u' v'
  | _, _ => []
  end.

Definition ew_map2 (f : R -> R -> R) (m n : list (list R)) : list (list R) :=
  zip_with (zip_with f) m n.

(** Lines 100-113. *)
Definition calculate_distance_matrix (locations : list (list R))
  : option (list (list R)) :=
  xs <- column 1 locations ;;
  ys <- column 2 locations ;;
  let x_diff := outer_sub xs xs in
  let y_diff := outer_sub ys ys in
  let distance_matrix :=
    ew_map sqrt (ew_map2 Rplus (ew_map (fun v => v ^ 2) x_diff)
                               (ew_map (fun v => v ^ 2) y_diff)) in
  Some distance_matrix.

(** [np.argmax] of a flattened array: the index of the first occurrence of
    the maximum; fails on an empty array. *)
Fixpoint argmax_from (best_i : nat) (best : R) (i : nat) (l : list R) : nat :=
  match l with
  | [] => best_i
  | x :: t =>
      if Rlt_dec best x then argmax_from i x (S i) t
      else argmax_from best_i best (S i) t
  end.

Definition np_argmax (m : list (list R)) : option nat :=
  match concat m with
  | [] => None
  | x :: t => Some (argmax_from 0 x 1 t)
  end.

(** [np.max] of an array; fails on an empty array. *)
Definition np_max (m : list (list R)) : option R :=
  match concat m with
  | [] => None
  | x :: t => Some (fold_left Rmax t x)
  end.

(** [np.unravel_index(k, shape)] for a two-dimensional shape. *)
Definition unravel_index (k : nat) (shp : nat * nat) : nat * nat :=
  (k / snd shp, k mod snd shp)%nat.

(** Lines 115-128. *)
Definition find_outbreak_centre (locations : list (list R))
  : option (list R) :=
  distance_matrix <- calculate_distance_matrix locations ;;
  k <- np_argmax distance_matrix ;;
  let max_distance_index := unravel_index k (shape distance_matrix) in
  row <- nth_error locations (fst max_distance_index) ;;
  let outbreak_centre := py_slice 1 3 row in
  Some outbreak_centre.

(** Every case row has the identifier, x and y columns. *)
Definition well_formed (locations : list (list R)) : Prop :=
  Forall (fun row => (3 <= length row)%nat) locations.

(** Entry [(i, j)] of a two-dimensional array. *)
Definition entry (m : list (list R)) (i j : nat) : R :=
  nth j (nth i m []) 0.

(** The planar Euclidean distance between two case rows. *)
Definition euclid (p q : list R) : R :=
  sqrt ((nth 1 p 0 - nth 1 q 0) ^ 2 + (nth 2 p 0 - nth 2 q 0) ^ 2).

(** The matrix of pairwise distances, row by row. *)
Definition distance_rows (locations : list (list R)) : list (list R) :=
  map (fun p => map (fun q => euclid p q) locations) locations.

(** The [(x, y)] coordinate of a case row. *)
Definition coordinate (row : list R) : list R := [nth 1 row 0; nth 2 row 0].

End Distances.

(** ** Reporter/Visualizer: [plot_population]

    The plotting and file-system calls are recorded in the order in which
    the function makes them; what Matplotlib draws is not modelled. *)

Module Plotting.
Import Py Aggregation.
Import Ascii String.
Local Open Scope Q_scope.

(** [np.where(population_matrix <= 0, 1, population_matrix)] *)
Definition np_where_nonpos (population_matrix : list (list Q))
  : list (list Q) :=
  map (map (fun v => if Qle_bool v 0 then 1 else v)) population_matrix.

(** Truth value of an optional string argument: [None] and the empty
    string are false. *)
Definition truthy (s : option string) : bool :=
  match s with
  | None => false
  | Some String.EmptyString => false
  | Some (String.String _ _) => true
  end.

(** The string of an optional argument ([None] is never joined or saved:
    every use is guarded by [truthy]). *)
Definition str (s : option string) : string :=
  match s with Some t => t | None => String.EmptyString end.

Definition starts_with_slash (s : string) : bool :=
  match s with
  | String.String c _ => Ascii.eqb c "/"%char
  | String.EmptyString => false
  end.

Fixpoint ends_with_slash (s : string) : bool :=
  match s with
  | String.EmptyString => false
  | String.String c String.EmptyString => Ascii.eqb c "/"%char
  | String.String _ t => ends_with_slash t
  end.

(** [os.path.join(a, b)] on POSIX paths. *)
Definition path_join (a b : string) : string :=
  if starts_with_slash b then b
  else
    match a with
    | String.EmptyString => b
    | _ =>
        if ends_with_slash a then String.append a b
        else String.append a (String.String "/"%char b)
    end.

(** The calls made by [plot_population]. *)
Inductive call : Type :=
  | imshow (m : list (list Q))
  | colorbar (label : string)
  | scatter (x y : Q)
  | title (text : string)
  | xlabel (text : string)
  | ylabel (text : string)
  | legend
  | makedirs (path : string)
  | savefig (path : string)
  | close
  | show.

(** Lines 55-98. *)
Definition plot_population
    (population_matrix : list (list Q)) (outbreak_centre : Q * Q)
    (output_dir fig_name : option string) : list call :=
  let non_negative_matrix := np_where_nonpos population_matrix in
  [ imshow non_negative_matrix;
    colorbar "Population (log scale)"%string;
    scatter (fst outbreak_centre / 100) (snd outbreak_centre / 100);
    title "Population Distribution & Outbreak Center (log scale)"%string;
    xlabel "East-West (100m per cell)"%string;
    ylabel "North-South (100m per cell)"%string;
    legend ]
  ++ (if truthy output_dir then [makedirs (str output_dir)] else [])
  ++ (if truthy fig_name then
        let fig_path :=
          if truthy output_dir then path_join (str output_dir) (str fig_name)
          else str fig_name in
        [savefig fig_path; close]
      else [show]).

End Plotting.

(** ** [find_affected_population] with its indices in binary64

    The centre and the distance are [float64] values and every operation on
    them is the IEEE operation of the source; the grid entries and their sum
    stay exact. *)

Module Float64.
Import Py Aggregation.
Import Floats.

(** [int(x)] on a [float64]: truncation toward zero; [int] raises on an
    infinity and on NaN. *)
Definition f64_int (x : float) : option Z :=
  match Prim2SF x with
  | S754_zero _ => Some 0%Z
  | S754_finite s m e =>
      let magnitude :=
        if (0 <=? e)%Z then Z.shiftl (Z.pos m) e
        else Z.shiftr (Z.pos m) (- e) in
      Some (if s then (- magnitude)%Z else magnitude)
  | S754_infinity _ => None
  | S754_nan => None
  end.

(** The [float64] nearest to a Python integer, as in [c - east_west_range]. *)
Definition f64_of_Z (z : Z) : float :=
  SF2Prim (binary_normalize prec emax z 0 false).

Definition bind {A B : Type} (x : option A) (f : A -> option B) : option B :=
  match x with Some a => f a | None => None end.

(** Lines 130-158, a raised exception being [None]. *)
Definition find_affected_population_f64
    (population_matrix : list (list Q)) (outbreak_centre : float * float)
    (max_distance : float) : option Q :=
  let '(east_west_cells, north_south_cells) := shape population_matrix in
  let cell_size := 100%float in
  let outbreak_centre_cells :=
    (fst outbreak_centre / cell_size, snd outbreak_centre / cell_size)%float in
  bind (f64_int (max_distance / cell_size)%float) (fun east_west_range =>
  bind (f64_int (max_distance / cell_size)%float) (fun north_south_range =>
  bind (f64_int (fst outbreak_centre_cells
                 - f64_of_Z east_west_range)%float) (fun lo_i =>
  bind (f64_int (fst outbreak_centre_cells
                 + f64_of_Z east_west_range + 1)%float) (fun hi_i =>
  bind (f64_int (snd outbreak_centre_cells
                 - f64_of_Z north_south_range)%float) (fun lo_j =>
  bind (f64_int (snd outbreak_centre_cells
                 + f64_of_Z north_south_range + 1)%float) (fun hi_j =>
  let start_i := Z.max 0 lo_i in
  let end_i := Z.min (Z.of_nat east_west_cells) hi_i in
  let start_j := Z.max 0 lo_j in
  let end_j := Z.min (Z.of_nat north_south_cells) hi_j in
  Some (np_sum (slice2 start_i end_i start_j end_j population_matrix)))))))).

End Float64.

(** * Facts about the aggregator *)

Section PyIntFacts.
Import Aggregation.
Local Open Scope Q_scope.

Lemma py_int_nonneg (x : Q) : 0 <= x -> py_int x = Qfloor x.
Proof.
  destruct x as [n d]; unfold py_int, Qfloor, Qle; simpl; intros H.
  apply Z.quot_div_nonneg; lia.
Qed.

Lemma py_int_nonpos (x : Q) : x <= 0 -> py_int x = Qceiling x.
Proof.
  destruct x as [n d]; unfold py_int, Qceiling, Qfloor, Qle; simpl; intros H.
  rewrite <- (Z.opp_involutive n) at 1.
  rewrite Z.quot_opp_l by lia.
  f_equal. apply Z.quot_div_nonneg; lia.
Qed.


Lemma py_int_le (x y : Q) : x <= y -> (py_int x <= py_int y)%Z.
Proof.
  intros L. destruct (Qlt_le_dec x 0) as [Hx | Hx];
    destruct (Qlt_le_dec y 0) as [Hy | Hy].
  - rewrite !py_int_nonpos by now apply Qlt_le_weak.
    now apply Qceiling_resp_le.
  - rewrite (py_int_nonpos x) by now apply Qlt_le_weak.
    rewrite (py_int_nonneg y) by assumption.
    apply Z.le_trans with 0%Z.
    + change 0%Z with (Qceiling 0). apply Qceiling_resp_le.
      now apply Qlt_le_weak.
    + change 0%Z with (Qfloor 0). now apply Qfloor_resp_le.
  - exfalso. apply (Qlt_irrefl 0).
    apply Qle_lt_trans with y; [| assumption].
    now apply Qle_trans with x.
  - rewrite !py_int_nonneg by (assumption || now apply Qle_trans with x).
    now apply Qfloor_resp_le.
Qed.


End PyIntFacts.

Section SliceFacts.
Import Py Aggregation.
Local Open Scope Q_scope.

Lemma np_sum1_app (u v : list Q) :
  np_sum1 (u ++ v) == np_sum1 u + np_sum1 v.
Proof.
  induction u as [| a u IH]; simpl.
  - now rewrite Qplus_0_l.
  - rewrite IH. apply Qplus_assoc.
Qed.

Lemma np_sum_map {A : Type} (g : A -> list Q) (m : list A) :
  np_sum (map g m) == np_sum1 (map (fun row => np_sum1 (g row)) m).
Proof.
  unfold np_sum. induction m as [| row m IH]; simpl.
  - reflexivity.
  - rewrite np_sum1_app, IH. reflexivity.
Qed.

Lemma sum_where_ext {A : Type} (f g : A -> Q) (P P' : Z -> bool) (l : list A) :
  forall k : Z,
    (forall a, In a l -> f a == g a) ->
    (forall i, (k <= i < k + Z.of_nat (length l))%Z -> P i = P' i) ->
    sum_where f P k l == sum_where g P' k l.
Proof.
  induction l as [| a l IH]; intros k Hf HP; simpl.
  - reflexivity.
  - rewrite (IH (k + 1)%Z).
    + rewrite (HP k) by (simpl length; lia).
      destruct (P' k); [rewrite (Hf a) by now left|]; reflexivity.
    + intros b Hb. apply Hf. now right.
    + intros i Hi. apply HP. simpl length. lia.
Qed.

Lemma sum_where_none {A : Type} (f : A -> Q) (P : Z -> bool) (l : list A) :
  forall k : Z,
    (forall i, (k <= i < k + Z.of_nat (length l))%Z -> P i = false) ->
    sum_where f P k l == 0.
Proof.
  induction l as [| a l IH]; intros k HP; cbn [sum_where].
  - reflexivity.
  - rewrite (HP k) by (cbn [length]; lia).
    rewrite IH; [reflexivity|].
    intros i Hi. apply HP. cbn [length]. lia.
Qed.

Lemma sum_where_window {A : Type} (f : A -> Q) (l : list A) :
  forall (a b : nat) (k : Z),
    np_sum1 (map f (firstn b (skipn a l))) ==
    sum_where f
      (fun i => (k + Z.of_nat a <=? i)%Z && (i <? k + Z.of_nat a + Z.of_nat b)%Z)
      k l.
Proof.
  induction l as [| x l IH]; intros a b k.
  - rewrite skipn_nil, firstn_nil. reflexivity.
  - destruct a as [| a]; [destruct b as [| b] |].
    + cbn [skipn firstn map np_sum1 fold_right].
      symmetry. apply sum_where_none. intros i Hi.
      apply andb_false_iff. right. apply Z.ltb_ge. lia.
    + cbn [skipn firstn map np_sum1 fold_right sum_where].
      assert ((k + Z.of_nat 0 <=? k)%Z
              && (k <? k + Z.of_nat 0 + Z.of_nat (S b))%Z = true) as ->.
      { apply andb_true_iff. split; [apply Z.leb_le | apply Z.ltb_lt]; lia. }
      apply Qplus_comp; [reflexivity|].
      specialize (IH 0%nat b (k + 1)%Z). cbn [skipn] in IH.
      unfold np_sum1 in IH. rewrite IH.
      apply sum_where_ext; [reflexivity|]. intros i Hi.
      f_equal.
      * destruct (Z.leb_spec (k + 1 + Z.of_nat 0) i);
          destruct (Z.leb_spec (k + Z.of_nat 0) i); try reflexivity; lia.
      * destruct (Z.ltb_spec i (k + 1 + Z.of_nat 0 + Z.of_nat b));
          destruct (Z.ltb_spec i (k + Z.of_nat 0 + Z.of_nat (S b)));
          try reflexivity; lia.
    + cbn [skipn sum_where].
      assert ((k + Z.of_nat (S a) <=? k)%Z = false) as ->
        by (apply Z.leb_gt; lia).
      cbn [andb]. rewrite Qplus_0_l.
      rewrite (IH a b (k + 1)%Z).
      apply sum_where_ext; [reflexivity|]. intros i Hi.
      f_equal.
      * destruct (Z.leb_spec (k + 1 + Z.of_nat a) i);
          destruct (Z.leb_spec (k + Z.of_nat (S a)) i); try reflexivity; lia.
      * destruct (Z.ltb_spec i (k + 1 + Z.of_nat a + Z.of_nat b));
          destruct (Z.ltb_spec i (k + Z.of_nat (S a) + Z.of_nat b));
          try reflexivity; lia.
Qed.

(** Without wrap-around ([0 <= start], [0 <= stop]) the sum over a slice is
    the sum over the elements whose index lies in [[start, stop)]. *)
Lemma py_slice_sum {A : Type} (f : A -> Q) (s e : Z) (l : list A) :
  (0 <= s)%Z -> (0 <= e)%Z ->
  np_sum1 (map f (py_slice s e l)) ==
  sum_where f (half_open s e) 0 l.
Proof.
  intros Hs He. unfold py_slice, slice_index.
  rewrite !(proj2 (Z.ltb_ge _ _)) by lia.
  rewrite (sum_where_window f l _ _ 0%Z).
  apply sum_where_ext; [reflexivity|]. intros i Hi.
  set (len := Z.of_nat (length l)) in *. unfold half_open.
  destruct (Z.leb_spec s i); destruct (Z.ltb_spec i e);
    destruct (Z.leb_spec (0 + Z.of_nat (Z.to_nat (Z.min s len))) i);
    destruct (Z.ltb_spec i (0 + Z.of_nat (Z.to_nat (Z.min s len))
                            + Z.of_nat (Z.to_nat (Z.min e len - Z.min s len))));
    try reflexivity; simpl; lia.
Qed.

Lemma py_slice_In {A : Type} (s e : Z) (l : list A) (a : A) :
  In a (py_slice s e l) -> In a l.
Proof.
  unfold py_slice. intros H.
  rewrite <- (firstn_skipn (Z.to_nat (slice_index (Z.of_nat (length l)) s)) l).
  apply in_or_app. right.
  rewrite <- (firstn_skipn
                (Z.to_nat (slice_index (Z.of_nat (length l)) e
                           - slice_index (Z.of_nat (length l)) s))
                (skipn _ l)).
  apply in_or_app. now left.
Qed.

Lemma slice_index_range (len k : Z) :
  (0 <= len)%Z -> (0 <= slice_index len k <= len)%Z.
Proof.
  intros H. unfold slice_index. destruct (Z.ltb_spec k 0); lia.
Qed.

(** A slice that starts at or after the end of the list is empty. *)
Lemma py_slice_past_end {A : Type} (s e : Z) (l : list A) :
  (Z.of_nat (length l) <= s)%Z -> py_slice s e l = [].
Proof.
  intros H. unfold py_slice.
  pose proof (slice_index_range (Z.of_nat (length l)) e ltac:(lia)) as He.
  assert (slice_index (Z.of_nat (length l)) s = Z.of_nat (length l)) as ->.
  { unfold slice_index. destruct (Z.ltb_spec s 0); lia. }
  replace (Z.to_nat _) with 0%nat at 1 by lia. reflexivity.
Qed.

(** A slice whose stop is non-negative and not after its start is empty. *)
Lemma py_slice_backwards {A : Type} (s e : Z) (l : list A) :
  (0 <= e <= s)%Z -> py_slice s e l = [].
Proof.
  intros H. unfold py_slice, slice_index.
  destruct (Z.ltb_spec s 0); destruct (Z.ltb_spec e 0); try lia.
  replace (Z.to_nat _) with 0%nat at 1 by lia. reflexivity.
Qed.

Lemma np_sum_all_empty {A : Type} (g : A -> list Q) (m : list A) :
  (forall row, In row m -> g row = []) -> np_sum (map g m) == 0.
Proof.
  intros H. unfold np_sum. induction m as [| row m IH]; simpl.
  - reflexivity.
  - rewrite (H row) by now left. simpl. apply IH.
    intros r Hr. apply H. now right.
Qed.

Lemma find_affected_population_eq (m : list (list Q)) (c : Q * Q) (d : Q) :
  find_affected_population m c d =
  let r := py_int (d / cell_size) in
  np_sum (slice2 (start_index (fst c) r) (end_index (fst (shape m)) (fst c) r)
                 (start_index (snd c) r) (end_index (snd (shape m)) (snd c) r)
                 m).
Proof. reflexivity. Qed.

Lemma start_index_nonneg (c : Q) (r : Z) : (0 <= start_index c r)%Z.
Proof. unfold start_index. lia. Qed.

Lemma end_index_nonneg (dim : nat) (c : Q) (r : Z) :
  (0 <= py_int (c / cell_size + inject_Z r + 1))%Z ->
  (0 <= end_index dim c r)%Z.
Proof. unfold end_index. lia. Qed.

(** When neither end index is negative, no slice wraps around and the
    result is the sum of the cells in the half-open index ranges. *)
Lemma find_affected_population_no_wrap (m : list (list Q)) (c : Q * Q) (d : Q) :
  let r := py_int (d / cell_size) in
  (0 <= py_int (fst c / cell_size + inject_Z r + 1))%Z ->
  (0 <= py_int (snd c / cell_size + inject_Z r + 1))%Z ->
  find_affected_population m c d ==
  sum_where
    (sum_where (fun v => v)
       (half_open (start_index (snd c) r) (end_index (snd (shape m)) (snd c) r))
       0)
    (half_open (start_index (fst c) r) (end_index (fst (shape m)) (fst c) r))
    0 m.
Proof.
  intros r Hi Hj. rewrite find_affected_population_eq. fold r. cbv zeta.
  unfold slice2. rewrite np_sum_map.
  rewrite py_slice_sum
    by (apply start_index_nonneg || now apply end_index_nonneg).
  apply sum_where_ext; [| reflexivity].
  intros row _.
  rewrite <- (map_id (py_slice _ _ row)).
  apply py_slice_sum; [apply start_index_nonneg | now apply end_index_nonneg].
Qed.

Lemma window_agree (dim : nat) (lo hi i : Z) :
  (0 <= i)%Z ->
  half_open (Z.max 0 lo) (Z.min (Z.of_nat dim) (hi + 1)) i =
  clamped_window dim lo hi i.
Proof.
  intros Hi. unfold half_open, clamped_window.
  destruct (Z.leb_spec (Z.max 0 lo) i);
    destruct (Z.ltb_spec i (Z.min (Z.of_nat dim) (hi + 1)));
    destruct (Z.leb_spec lo i); destruct (Z.leb_spec i hi);
    destruct (Z.leb_spec 0 i); destruct (Z.ltb_spec i (Z.of_nat dim));
    try reflexivity; lia.
Qed.

End SliceFacts.

Section WindowClaims.
Import Py Aggregation.
Local Open Scope Q_scope.

(** C2, as amended.  For every grid, centre and [max_distance] for which
    the end index the code computes, [int(centre_cell + r + 1)], is not
    negative on either axis, [find_affected_population] returns the sum of
    the grid cells inside the window
    [[int(centre_cell - r), int(centre_cell + r + 1) - 1]] (inclusive, on
    each axis independently) clamped to the grid, where
    [r = int(max_distance / 100)] and [centre_cell] is the centre coordinate
    divided by 100. *)
Theorem find_affected_population_clamped_window
    (m : list (list Q)) (c : Q * Q) (d : Q) :
  let r := inject_Z (py_int (d / cell_size)) in
  let lo_i := py_int (fst c / cell_size - r) in
  let end_i := py_int (fst c / cell_size + r + 1) in
  let lo_j := py_int (snd c / cell_size - r) in
  let end_j := py_int (snd c / cell_size + r + 1) in
  (0 <= end_i)%Z -> (0 <= end_j)%Z ->
  find_affected_population m c d ==
  sum_where
    (sum_where (fun v => v)
       (clamped_window (snd (shape m)) lo_j (end_j - 1)) 0)
    (clamped_window (fst (shape m)) lo_i (end_i - 1)) 0
    m.
Proof.
  intros r lo_i end_i lo_j end_j Hi Hj.
  rewrite find_affected_population_no_wrap by assumption.
  unfold start_index, end_index. fold r lo_i end_i lo_j end_j.
  replace end_i with (end_i - 1 + 1)%Z at 1 by lia.
  replace end_j with (end_j - 1 + 1)%Z at 1 by lia.
  apply sum_where_ext.
  - intros row _. apply sum_where_ext; [reflexivity |].
    intros j Hj'. apply window_agree. lia.
  - intros i Hi'. apply window_agree. lia.
Qed.

(** A concrete input meeting the hypotheses: an interior centre of a
    3 x 3 grid, where the window is rows 0 to 2 and columns 1 to 2. *)
Lemma find_affected_population_clamped_window_witness :
  (0 <= py_int (fst (150, 250) / cell_size
                + inject_Z (py_int (100 / cell_size)) + 1)%Q)%Z /\
  (0 <= py_int (snd (150, 250) / cell_size
                + inject_Z (py_int (100 / cell_size)) + 1)%Q)%Z /\
  find_affected_population [[1; 2; 3]; [4; 5; 6]; [7; 8; 9]] (150, 250) 100
  == 2 + 3 + 5 + 6 + 8 + 9.
Proof.
  assert (0 <= py_int (fst (150, 250) / cell_size
                       + inject_Z (py_int (100 / cell_size)) + 1)%Q)%Z as Hi
    by (vm_compute; discriminate).
  assert (0 <= py_int (snd (150, 250) / cell_size
                       + inject_Z (py_int (100 / cell_size)) + 1)%Q)%Z as Hj
    by (vm_compute; discriminate).
  split; [exact Hi | split; [exact Hj |]].
  eapply Qeq_trans.
  - exact (find_affected_population_clamped_window
             [[1; 2; 3]; [4; 5; 6]; [7; 8; 9]] (150, 250) 100 Hi Hj).
  - vm_compute. reflexivity.
Defined.

(** C2, as stated, fails: with the centre at (-50, -50) and
    [max_distance = 0] the window of the specification is cell (0, 0), the
    code sums the empty slice. *)
Lemma find_affected_population_window_counterexample :
  ~ (find_affected_population [[1]] (-50, -50) 0 ==
     spec_affected_population [[1]] (-50, -50) 0).
Proof. vm_compute. discriminate. Qed.

(** C3, as amended.  For every (rectangular) grid, if on some axis the
    window lies beyond the far edge of the grid
    ([int(centre_cell - r) >= grid_dimension]) or stops at the grid origin
    ([int(centre_cell + r + 1) = 0]), the slice is empty and
    [find_affected_population] returns 0. *)
Theorem find_affected_population_outside
    (m : list (list Q)) (c : Q * Q) (d : Q) :
  rectangular m ->
  let r := inject_Z (py_int (d / cell_size)) in
  (Z.of_nat (fst (shape m)) <= py_int (fst c / cell_size - r))%Z \/
  py_int (fst c / cell_size + r + 1) = 0%Z \/
  (Z.of_nat (snd (shape m)) <= py_int (snd c / cell_size - r))%Z \/
  py_int (snd c / cell_size + r + 1) = 0%Z ->
  find_affected_population m c d == 0.
Proof.
  intros Hrect r H. rewrite find_affected_population_eq. cbv zeta.
  unfold slice2, start_index, end_index. fold r.
  destruct H as [H | [H | [H | H]]].
  - rewrite py_slice_past_end by (unfold shape in H; simpl fst in H; lia).
    reflexivity.
  - rewrite H, py_slice_backwards by lia. reflexivity.
  - apply np_sum_all_empty. intros row Hrow.
    apply py_slice_past_end.
    apply py_slice_In in Hrow.
    unfold rectangular in Hrect. rewrite Forall_forall in Hrect.
    rewrite (Hrect row Hrow). lia.
  - apply np_sum_all_empty. intros row Hrow.
    rewrite H. apply py_slice_backwards. lia.
Qed.

(** A concrete input meeting the hypotheses: a centre
    two cells past the far edge of a 2 x 2 grid. *)
Lemma find_affected_population_outside_witness :
  rectangular [[1; 2]; [3; 4]] /\
  find_affected_population [[1; 2]; [3; 4]] (450, 50) 100 == 0.
Proof.
  assert (rectangular [[1; 2]; [3; 4]]) as Hrect
    by (repeat constructor).
  split; [exact Hrect |].
  apply (find_affected_population_outside [[1; 2]; [3; 4]] (450, 50) 100 Hrect).
  left. vm_compute. discriminate.
Defined.

(** C3, as stated, fails: the centre (-100, -100) lies outside the grid,
    yet with [max_distance = 100] the window reaches back to cell (0, 0). *)
Lemma find_affected_population_outside_counterexample :
  centre_outside [[1]] (-100, -100) = true /\
  ~ (find_affected_population [[1]] (-100, -100) 100 == 0).
Proof. split; [reflexivity | vm_compute; discriminate]. Qed.

End WindowClaims.

Section BoundFacts.
Import Py Aggregation.
Local Open Scope Q_scope.

Lemma np_sum1_nonneg (l : list Q) :
  Forall (fun v => 0 <= v) l -> 0 <= np_sum1 l.
Proof.
  induction 1 as [| v l Hv _ IH]; simpl.
  - apply Qle_refl.
  - rewrite <- (Qplus_0_l 0). now apply Qplus_le_compat.
Qed.

Lemma np_sum1_firstn_le (n : nat) (l : list Q) :
  Forall (fun v => 0 <= v) l -> np_sum1 (firstn n l) <= np_sum1 l.
Proof.
  intros H. revert n. induction H as [| v l Hv Hl IH]; intros [| n]; simpl;
    try apply Qle_refl.
  - rewrite <- (Qplus_0_l 0). apply Qplus_le_compat; [exact Hv |].
    now apply np_sum1_nonneg.
  - apply Qplus_le_compat; [apply Qle_refl | apply IH].
Qed.

Lemma np_sum1_skipn_le (n : nat) (l : list Q) :
  Forall (fun v => 0 <= v) l -> np_sum1 (skipn n l) <= np_sum1 l.
Proof.
  intros H. revert n. induction H as [| v l Hv Hl IH]; intros [| n]; simpl;
    try apply Qle_refl.
  apply Qle_trans with (np_sum1 l); [apply IH |].
  rewrite <- (Qplus_0_l (np_sum1 l)) at 1.
  apply Qplus_le_compat; [exact Hv | apply Qle_refl].
Qed.

Lemma Forall_skipn_nonneg (n : nat) (l : list Q) :
  Forall (fun v => 0 <= v) l -> Forall (fun v => 0 <= v) (skipn n l).
Proof.
  intros H. rewrite Forall_forall in *. intros v Hv. apply H.
  rewrite <- (firstn_skipn n l). apply in_or_app. now right.
Qed.

Lemma py_slice_map {A B : Type} (f : A -> B) (s e : Z) (l : list A) :
  py_slice s e (map f l) = map f (py_slice s e l).
Proof.
  unfold py_slice. now rewrite length_map, skipn_map, firstn_map.
Qed.

(** Whatever the bounds, also when they wrap around, a slice of a list of
    non-negative numbers sums to at most the whole list. *)
Lemma py_slice_sum_le (s e : Z) (l : list Q) :
  Forall (fun v => 0 <= v) l -> np_sum1 (py_slice s e l) <= np_sum1 l.
Proof.
  intros H. unfold py_slice.
  apply Qle_trans with (np_sum1 (skipn (Z.to_nat
                          (slice_index (Z.of_nat (length l)) s)) l)).
  - apply np_sum1_firstn_le. now apply Forall_skipn_nonneg.
  - now apply np_sum1_skipn_le.
Qed.

Lemma py_slice_nonneg (s e : Z) (l : list Q) :
  Forall (fun v => 0 <= v) l -> Forall (fun v => 0 <= v) (py_slice s e l).
Proof.
  intros H. rewrite Forall_forall in *. intros v Hv.
  apply H. now apply py_slice_In in Hv.
Qed.

Lemma np_sum1_map_le {A : Type} (f g : A -> Q) (l : list A) :
  (forall a, In a l -> f a <= g a) ->
  np_sum1 (map f l) <= np_sum1 (map g l).
Proof.
  induction l as [| a l IH]; intros H; simpl.
  - apply Qle_refl.
  - apply Qplus_le_compat.
    + apply H. now left.
    + apply IH. intros b Hb. apply H. now right.
Qed.

Lemma np_sum1_map_eq {A : Type} (f g : A -> Q) (l : list A) :
  (forall a, In a l -> f a == g a) ->
  np_sum1 (map f l) == np_sum1 (map g l).
Proof.
  induction l as [| a l IH]; intros H; simpl.
  - reflexivity.
  - rewrite (H a) by now left. rewrite IH; [reflexivity |].
    intros b Hb. apply H. now right.
Qed.

Lemma np_sum_rows (m : list (list Q)) : np_sum m == np_sum1 (map np_sum1 m).
Proof. rewrite <- (map_id m) at 1. apply np_sum_map. Qed.

(** A rectangular sub-block of a grid of non-negative entries, whatever
    the four slice bounds, sums to a value between 0 and the sum of the
    grid. *)
Lemma slice2_sum_bounds (si ei sj ej : Z) (m : list (list Q)) :
  non_negative m ->
  0 <= np_sum (slice2 si ei sj ej m) /\
  np_sum (slice2 si ei sj ej m) <= np_sum m.
Proof.
  intros Hm. unfold non_negative in Hm. unfold slice2.
  rewrite np_sum_map, np_sum_rows.
  set (G := fun row : list Q => np_sum1 (py_slice sj ej row)).
  assert (forall row, In row m -> 0 <= G row) as HG0.
  { intros row Hrow. apply np_sum1_nonneg, py_slice_nonneg.
    rewrite Forall_forall in Hm. now apply Hm. }
  assert (Forall (fun v => 0 <= v) (map G m)) as HGm.
  { rewrite Forall_forall. intros v Hv. apply in_map_iff in Hv.
    destruct Hv as [row [<- Hrow]]. now apply HG0. }
  split.
  - apply np_sum1_nonneg. rewrite <- py_slice_map.
    now apply py_slice_nonneg.
  - apply Qle_trans with (np_sum1 (map G m)).
    + rewrite <- py_slice_map. now apply py_slice_sum_le.
    + apply np_sum1_map_le. intros row Hrow. apply py_slice_sum_le.
      rewrite Forall_forall in Hm. now apply Hm.
Qed.

End BoundFacts.

Section BoundClaims.
Import Py Aggregation.
Local Open Scope Q_scope.

(** C7.  For every grid whose entries are all non-negative, every centre
    and every [max_distance], the result of [find_affected_population] is
    non-negative and at most the sum of the whole grid. *)
Theorem find_affected_population_bounds
    (m : list (list Q)) (c : Q * Q) (d : Q) :
  non_negative m ->
  0 <= find_affected_population m c d /\
  find_affected_population m c d <= total_population m.
Proof.
  intros Hm. rewrite find_affected_population_eq. cbv zeta.
  unfold total_population. now apply slice2_sum_bounds.
Qed.

(** A concrete input meeting the hypotheses: a 2 x 2
    grid of counts. *)
Lemma find_affected_population_bounds_witness :
  non_negative [[1; 2]; [3; 4]] /\
  0 <= find_affected_population [[1; 2]; [3; 4]] (50, 150) 0 /\
  find_affected_population [[1; 2]; [3; 4]] (50, 150) 0 <=
  total_population [[1; 2]; [3; 4]].
Proof.
  assert (non_negative [[1; 2]; [3; 4]]) as Hm
    by (repeat constructor; discriminate).
  split; [exact Hm |].
  apply (find_affected_population_bounds [[1; 2]; [3; 4]] (50, 150) 0 Hm).
Defined.

End BoundClaims.

Section SingleCell.
Import Py Aggregation.
Local Open Scope Q_scope.




End SingleCell.

Section SingleCellClaim.
Import Py Aggregation.
Local Open Scope Q_scope.



End SingleCellClaim.

Section SingleCellRounding.
Import Py Aggregation Float64.
Import Floats.


(** The inputs on which the exact model refutes C2, C3 and C4 involve no
    rounding: the binary64 indices give the same results there. *)
Lemma float_indices_at_counterexamples :
  find_affected_population_f64 [[1]]%Q ((-50)%float, (-50)%float) 0%float
  = Some 0%Q /\
  find_affected_population_f64 [[1]]%Q ((-100)%float, (-100)%float) 100%float
  = Some 1%Q /\
  find_affected_population_f64 [[1; 1]; [1; 1]]%Q ((-200)%float, 0%float)
    0%float = Some 1%Q /\
  find_affected_population_f64 [[1; 1]; [1; 1]]%Q ((-200)%float, 0%float)
    100%float = Some 0%Q.
Proof. vm_compute. repeat split; reflexivity. Qed.

End SingleCellRounding.

Section Monotonicity.
Import Py Aggregation.
Local Open Scope Q_scope.

Lemma Qplus_nonneg (a b : Q) : 0 <= a -> 0 <= b -> 0 <= a + b.
Proof.
  intros Ha Hb. change (0 + 0 <= a + b). now apply Qplus_le_compat.
Qed.

Lemma sum_where_le {A : Type} (f g : A -> Q) (P P' : Z -> bool) (l : list A) :
  forall k : Z,
    (forall a, In a l -> 0 <= f a /\ f a <= g a) ->
    (forall i, (k <= i < k + Z.of_nat (length l))%Z ->
               P i = true -> P' i = true) ->
    0 <= sum_where f P k l /\ sum_where f P k l <= sum_where g P' k l.
Proof.
  induction l as [| a l IH]; intros k Hf HP; cbn [sum_where].
  - split; apply Qle_refl.
  - destruct (IH (k + 1)%Z) as [IH0 IH1].
    + intros b Hb. apply Hf. now right.
    + intros i Hi. apply HP. cbn [length]. lia.
    + destruct (Hf a (or_introl eq_refl)) as [Hf0 Hfg].
      assert (0 <= g a) as Hg0 by now apply Qle_trans with (f a).
      specialize (HP k ltac:(cbn [length]; lia)).
      split.
      * apply Qplus_nonneg; [| exact IH0].
        destruct (P k); [exact Hf0 | apply Qle_refl].
      * apply Qplus_le_compat; [| exact IH1].
        destruct (P k).
        -- rewrite HP by reflexivity. exact Hfg.
        -- destruct (P' k); [exact Hg0 | apply Qle_refl].
Qed.

Lemma half_open_incl (s1 e1 s2 e2 i : Z) :
  (s2 <= s1)%Z -> (e1 <= e2)%Z ->
  half_open s1 e1 i = true -> half_open s2 e2 i = true.
Proof.
  unfold half_open. intros Hs He H.
  apply andb_true_iff in H. destruct H as [H1 H2].
  apply Z.leb_le in H1. apply Z.ltb_lt in H2.
  apply andb_true_iff. split; [apply Z.leb_le | apply Z.ltb_lt]; lia.
Qed.

Lemma start_index_antitone (c : Q) (r1 r2 : Z) :
  (r1 <= r2)%Z -> (start_index c r2 <= start_index c r1)%Z.
Proof.
  intros H. unfold start_index. apply Z.max_le_compat_l, py_int_le.
  unfold Qminus. apply Qplus_le_r, Qopp_le_compat. now rewrite <- Zle_Qle.
Qed.

Lemma end_index_monotone (dim : nat) (c : Q) (r1 r2 : Z) :
  (r1 <= r2)%Z -> (end_index dim c r1 <= end_index dim c r2)%Z.
Proof.
  intros H. unfold end_index. apply Z.min_le_compat_l, py_int_le.
  apply Qplus_le_l, Qplus_le_r. now rewrite <- Zle_Qle.
Qed.

Lemma cell_range_monotone (d1 d2 : Q) :
  d1 <= d2 -> (py_int (d1 / cell_size) <= py_int (d2 / cell_size))%Z.
Proof.
  intros H. apply py_int_le. unfold Qdiv.
  apply Qmult_le_compat_r; [exact H | discriminate].
Qed.

(** Where no slice wraps around (the end indices computed for the smaller
    distance are non-negative), the result grows with [max_distance] on a
    grid of non-negative entries. *)
Lemma find_affected_population_monotone_no_wrap
    (m : list (list Q)) (c : Q * Q) (d1 d2 : Q) :
  non_negative m -> d1 <= d2 ->
  (0 <= py_int (fst c / cell_size + inject_Z (py_int (d1 / cell_size)) + 1))%Z ->
  (0 <= py_int (snd c / cell_size + inject_Z (py_int (d1 / cell_size)) + 1))%Z ->
  find_affected_population m c d1 <= find_affected_population m c d2.
Proof.
  intros Hm Hd Hi Hj.
  pose proof (cell_range_monotone d1 d2 Hd) as Hr.
  assert (forall x,
    (0 <= py_int (x / cell_size + inject_Z (py_int (d1 / cell_size)) + 1))%Z ->
    (0 <= py_int (x / cell_size + inject_Z (py_int (d2 / cell_size)) + 1))%Z)
    as Hup.
  { intros x Hx. eapply Z.le_trans; [exact Hx |]. apply py_int_le.
    apply Qplus_le_l, Qplus_le_r. now rewrite <- Zle_Qle. }
  rewrite (find_affected_population_no_wrap m c d1) by assumption.
  rewrite (find_affected_population_no_wrap m c d2) by now apply Hup.
  apply sum_where_le.
  - intros row Hrow. apply sum_where_le.
    + intros v Hv. split; [| apply Qle_refl].
      unfold non_negative in Hm. rewrite Forall_forall in Hm.
      specialize (Hm row Hrow). rewrite Forall_forall in Hm. now apply Hm.
    + intros i _. apply half_open_incl;
        [now apply start_index_antitone | now apply end_index_monotone].
  - intros i _. apply half_open_incl;
      [now apply start_index_antitone | now apply end_index_monotone].
Qed.

End Monotonicity.

Section MonotonicityClaim.
Import Py Aggregation.
Local Open Scope Q_scope.

(** C4 fails on the code.  On the 2 x 2 grid of ones with the centre at
    (-200, 0), [max_distance = 0] gives the end index -1 on the first axis,
    which the slice counts from the end of the axis, so one cell is summed;
    with [max_distance = 100] the end index is 0 and nothing is summed: the
    result decreases although the distance grows and no entry is negative. *)
Theorem find_affected_population_not_monotone :
  non_negative [[1; 1]; [1; 1]] /\
  0 <= 0 /\ 0 <= 100 /\
  find_affected_population [[1; 1]; [1; 1]] (-200, 0) 0 == 1 /\
  find_affected_population [[1; 1]; [1; 1]] (-200, 0) 100 == 0 /\
  ~ (find_affected_population [[1; 1]; [1; 1]] (-200, 0) 0 <=
     find_affected_population [[1; 1]; [1; 1]] (-200, 0) 100).
Proof.
  split; [repeat constructor; discriminate |].
  vm_compute. repeat split; try discriminate; try reflexivity.
  intros H. now apply H.
Qed.

End MonotonicityClaim.

Section Percentage.
Import Py Aggregation.
Local Open Scope Q_scope.

(** C9.  When the sum of the whole grid is zero, the percentage computation
    still divides: it returns a value that is not a finite number (NaN or an
    infinity) and signals no error, and on a grid of non-negative entries
    that value is NaN. *)
Theorem percentage_affected_zero_total
    (m : list (list Q)) (c : Q * Q) (d : Q) :
  total_population m == 0 ->
  is_finite (percentage_affected m c d) = false /\
  (non_negative m -> percentage_affected m c d = NaN).
Proof.
  intros Ht.
  assert (is_zero (total_population m) = true) as Hz
    by (apply Qeq_bool_iff; exact Ht).
  unfold percentage_affected, np_divide. rewrite Hz. split.
  - destruct (is_zero (find_affected_population m c d));
      [| destruct (is_neg (find_affected_population m c d))]; reflexivity.
  - intros Hm.
    assert (is_zero (find_affected_population m c d) = true) as ->.
    { rewrite find_affected_population_eq. cbv zeta.
      match goal with
      | |- is_zero (np_sum (slice2 ?si ?ei ?sj ?ej m)) = true =>
          destruct (slice2_sum_bounds si ei sj ej m Hm) as [H0 H1]
      end.
      apply Qeq_bool_iff. apply Qle_antisym; [| exact H0].
      unfold total_population in Ht. now rewrite <- Ht. }
    reflexivity.
Qed.

(** A concrete input meeting the hypotheses: an all-zero
    population grid. *)
Lemma percentage_affected_zero_total_witness :
  total_population [[0; 0]; [0; 0]] == 0 /\
  is_finite (percentage_affected [[0; 0]; [0; 0]] (50, 50) 0) = false /\
  (non_negative [[0; 0]; [0; 0]] ->
   percentage_affected [[0; 0]; [0; 0]] (50, 50) 0 = NaN).
Proof.
  assert (total_population [[0; 0]; [0; 0]] == 0) as Ht by reflexivity.
  split; [exact Ht |].
  apply (percentage_affected_zero_total [[0; 0]; [0; 0]] (50, 50) 0 Ht).
Defined.

End Percentage.

(** * Facts about the distance matrix and the outbreak centre *)

Section DistanceFacts.
Import Py Distances.
Local Open Scope R_scope.

Lemma column_total (k : nat) (locations : list (list R)) :
  Forall (fun row => (k < length row)%nat) locations ->
  column k locations = Some (map (fun row => nth k row 0) locations).
Proof.
  induction 1 as [| row rest Hrow _ IH]; cbn [column map].
  - reflexivity.
  - destruct (nth_error row k) as [v |] eqn:Hv.
    + cbn [bind]. rewrite IH. cbn [bind].
      now rewrite (nth_error_nth row k 0 Hv).
    + apply nth_error_None in Hv. lia.
Qed.

Lemma zip_with_map {A B : Type} (f : B -> B -> B) (g h : A -> B) (l : list A) :
  zip_with f (map g l) (map h l) = map (fun a => f (g a) (h a)) l.
Proof.
  induction l as [| a l IH]; cbn [map zip_with]; [reflexivity | now rewrite IH].
Qed.

Lemma calculate_distance_matrix_eq (locations : list (list R)) :
  well_formed locations ->
  calculate_distance_matrix locations = Some (distance_rows locations).
Proof.
  intros Hwf. unfold calculate_distance_matrix.
  rewrite !column_total
    by (eapply Forall_impl; [| exact Hwf]; cbv beta; intros; lia).
  cbn [bind]. f_equal.
  unfold outer_sub, ew_map, ew_map2, distance_rows.
  rewrite !map_map.
  rewrite (zip_with_map (zip_with Rplus)).
  rewrite map_map. apply map_ext. intros p.
  rewrite !map_map.
  rewrite (zip_with_map Rplus).
  rewrite map_map. apply map_ext. intros q. reflexivity.
Qed.

Lemma entry_distance_rows (locations : list (list R)) (i j : nat)
    (p q : list R) :
  nth_error locations i = Some p -> nth_error locations j = Some q ->
  entry (distance_rows locations) i j = euclid p q.
Proof.
  intros Hp Hq. unfold entry, distance_rows.
  erewrite (nth_error_nth (map _ locations) i []).
  2:{ apply map_nth_error. exact Hp. }
  apply nth_error_nth.
  now apply (map_nth_error (fun q => euclid p q)).
Qed.

Lemma distance_rows_length (locations : list (list R)) :
  length (distance_rows locations) = length locations /\
  Forall (fun row => length row = length locations) (distance_rows locations).
Proof.
  unfold distance_rows. split.
  - apply length_map.
  - rewrite Forall_forall. intros row Hrow.
    apply in_map_iff in Hrow. destruct Hrow as [p [<- _]]. apply length_map.
Qed.

Lemma euclid_sym (p q : list R) : euclid p q = euclid q p.
Proof. unfold euclid. f_equal. ring. Qed.

Lemma euclid_refl (p : list R) : euclid p p = 0.
Proof.
  unfold euclid.
  replace ((nth 1 p 0 - nth 1 p 0) ^ 2 + (nth 2 p 0 - nth 2 p 0) ^ 2)
    with 0 by ring.
  apply sqrt_0.
Qed.

Lemma euclid_nonneg (p q : list R) : 0 <= euclid p q.
Proof. unfold euclid. apply sqrt_pos. Qed.

End DistanceFacts.

Section DistanceClaims.
Import Py Distances.
Local Open Scope R_scope.

(** C5.  For every sequence of cases (rows with at least the identifier, x
    and y columns) [calculate_distance_matrix] returns an N x N matrix whose
    entry (i, j) is the planar Euclidean distance
    [sqrt ((x_i - x_j)^2 + (y_i - y_j)^2)], with x column 1 and y column 2. *)
Theorem calculate_distance_matrix_euclidean (locations : list (list R)) :
  well_formed locations ->
  exists dm : list (list R),
    calculate_distance_matrix locations = Some dm /\
    length dm = length locations /\
    Forall (fun row => length row = length locations) dm /\
    forall (i j : nat) (p q : list R),
      nth_error locations i = Some p -> nth_error locations j = Some q ->
      entry dm i j =
      sqrt ((nth 1 p 0 - nth 1 q 0) ^ 2 + (nth 2 p 0 - nth 2 q 0) ^ 2).
Proof.
  intros Hwf. exists (distance_rows locations).
  destruct (distance_rows_length locations) as [Hlen Hrows].
  repeat split; try assumption.
  - now apply calculate_distance_matrix_eq.
  - intros i j p q Hp Hq. now apply entry_distance_rows.
Qed.

(** A concrete input meeting the hypotheses: the
    three cases (0,0), (300,0), (0,400). *)
Lemma calculate_distance_matrix_euclidean_witness :
  let locations := [[1; 0; 0]; [2; 300; 0]; [3; 0; 400]] in
  well_formed locations /\
  exists dm : list (list R),
    calculate_distance_matrix locations = Some dm /\
    length dm = length locations /\
    Forall (fun row => length row = length locations) dm /\
    forall (i j : nat) (p q : list R),
      nth_error locations i = Some p -> nth_error locations j = Some q ->
      entry dm i j =
      sqrt ((nth 1 p 0 - nth 1 q 0) ^ 2 + (nth 2 p 0 - nth 2 q 0) ^ 2).
Proof.
  intros locations.
  assert (well_formed locations) as Hwf by (repeat constructor).
  split; [exact Hwf |].
  exact (calculate_distance_matrix_euclidean locations Hwf).
Defined.

(** C6.  For every sequence of cases the matrix of
    [calculate_distance_matrix] is symmetric, has an exactly zero diagonal
    and has no negative entry. *)
Theorem calculate_distance_matrix_symmetric (locations : list (list R)) :
  well_formed locations ->
  exists dm : list (list R),
    calculate_distance_matrix locations = Some dm /\
    forall i j : nat,
      (i < length locations)%nat -> (j < length locations)%nat ->
      entry dm i j = entry dm j i /\ entry dm i i = 0 /\ 0 <= entry dm i j.
Proof.
  intros Hwf. exists (distance_rows locations).
  split; [now apply calculate_distance_matrix_eq |].
  intros i j Hi Hj.
  destruct (nth_error locations i) as [p |] eqn:Hp;
    [| apply nth_error_None in Hp; lia].
  destruct (nth_error locations j) as [q |] eqn:Hq;
    [| apply nth_error_None in Hq; lia].
  rewrite (entry_distance_rows locations i j p q Hp Hq).
  rewrite (entry_distance_rows locations j i q p Hq Hp).
  rewrite (entry_distance_rows locations i i p p Hp Hp).
  repeat split.
  - apply euclid_sym.
  - apply euclid_refl.
  - apply euclid_nonneg.
Qed.

(** A concrete input meeting the hypotheses: the
    three cases (0,0), (300,0), (0,400). *)
Lemma calculate_distance_matrix_symmetric_witness :
  let locations := [[1; 0; 0]; [2; 300; 0]; [3; 0; 400]] in
  well_formed locations /\
  exists dm : list (list R),
    calculate_distance_matrix locations = Some dm /\
    forall i j : nat,
      (i < length locations)%nat -> (j < length locations)%nat ->
      entry dm i j = entry dm j i /\ entry dm i i = 0 /\ 0 <= entry dm i j.
Proof.
  intros locations.
  assert (well_formed locations) as Hwf by (repeat constructor).
  split; [exact Hwf |].
  exact (calculate_distance_matrix_symmetric locations Hwf).
Defined.

End DistanceClaims.

Section ArgmaxFacts.
Import Py Distances.
Local Open Scope R_scope.

(** The scan of [np.argmax]: having seen the prefix [pre] with its first
    maximum [best] at [best_i], the scan of the rest [t] ends at the first
    maximum of the whole list. *)
Lemma argmax_from_spec (t : list R) :
  forall (pre : list R) (best_i : nat) (best : R) (i : nat),
    length pre = i -> (best_i < i)%nat -> nth best_i pre 0 = best ->
    (forall n, (n < i)%nat -> nth n pre 0 <= best) ->
    (forall n, (n < best_i)%nat -> nth n pre 0 < best) ->
    let k := argmax_from best_i best i t in
    let l := pre ++ t in
    (k < length l)%nat /\
    (forall n, (n < length l)%nat -> nth n l 0 <= nth k l 0) /\
    (forall n, (n < k)%nat -> nth n l 0 < nth k l 0).
Proof.
  induction t as [| x t IH]; intros pre best_i best i Hlen Hbi Hbest Hmax Hfirst;
    cbn [argmax_from]; cbv zeta.
  - rewrite app_nil_r, Hbest. repeat split.
    + lia.
    + intros n Hn. apply Hmax. lia.
    + exact Hfirst.
  - replace (pre ++ x :: t) with ((pre ++ [x]) ++ t)
      by (rewrite <- app_assoc; reflexivity).
    assert (length (pre ++ [x]) = S i) as Hlen'
      by (rewrite length_app; cbn [length]; lia).
    assert (forall n, (n < i)%nat -> nth n (pre ++ [x]) 0 = nth n pre 0) as Hold
      by (intros n Hn; apply app_nth1; lia).
    assert (nth i (pre ++ [x]) 0 = x) as Hnew.
    { rewrite app_nth2 by lia. rewrite Hlen, Nat.sub_diag. reflexivity. }
    destruct (Rlt_dec best x) as [Hlt | Hge].
    + apply (IH (pre ++ [x]) i x (S i)); try assumption; try lia.
      * intros n Hn. destruct (Nat.eq_dec n i) as [-> | Hne].
        -- rewrite Hnew. apply Rle_refl.
        -- rewrite Hold by lia. apply Rle_trans with best;
             [apply Hmax; lia | now apply Rlt_le].
      * intros n Hn. rewrite Hold by lia.
        apply Rle_lt_trans with best; [apply Hmax; lia | exact Hlt].
    + apply (IH (pre ++ [x]) best_i best (S i)); try assumption; try lia.
      * now rewrite Hold by lia.
      * intros n Hn. destruct (Nat.eq_dec n i) as [-> | Hne].
        -- rewrite Hnew. now apply Rnot_lt_le.
        -- rewrite Hold by lia. apply Hmax. lia.
      * intros n Hn. rewrite Hold by lia. now apply Hfirst.
Qed.

Lemma np_argmax_spec (m : list (list R)) :
  (0 < length (concat m))%nat ->
  exists k : nat,
    np_argmax m = Some k /\
    (k < length (concat m))%nat /\
    (forall n, (n < length (concat m))%nat ->
               nth n (concat m) 0 <= nth k (concat m) 0) /\
    (forall n, (n < k)%nat -> nth n (concat m) 0 < nth k (concat m) 0).
Proof.
  unfold np_argmax. destruct (concat m) as [| x t]; cbn [length]; intros H.
  - lia.
  - exists (argmax_from 0 x 1 t). split; [reflexivity |].
    apply (argmax_from_spec t [x] 0%nat x 1%nat); try reflexivity; try lia.
    intros n Hn. replace n with 0%nat by lia. apply Rle_refl.
Qed.

(** Flat (row-major) indices of a matrix whose rows all have [n] entries. *)
Lemma length_concat_rows (n : nat) (m : list (list R)) :
  Forall (fun row => length row = n) m ->
  length (concat m) = (length m * n)%nat.
Proof.
  induction 1 as [| row m Hrow _ IH]; cbn [concat length].
  - reflexivity.
  - rewrite length_app, IH, Hrow. lia.
Qed.

Lemma nth_concat_rows (n : nat) (m : list (list R)) :
  Forall (fun row => length row = n) m ->
  forall i j : nat, (j < n)%nat ->
    nth (i * n + j) (concat m) 0 = entry m i j.
Proof.
  unfold entry. induction 1 as [| row m Hrow _ IH]; intros i j Hj.
  - cbn [concat]. destruct (i * n + j)%nat; destruct i; destruct j; reflexivity.
  - destruct i as [| i]; cbn [concat nth].
    + rewrite Nat.mul_0_l, Nat.add_0_l. apply app_nth1. lia.
    + replace (S i * n + j)%nat with (length row + (i * n + j))%nat by lia.
      rewrite app_nth2_plus. now apply IH.
Qed.

Lemma py_slice_xy (row : list R) :
  (3 <= length row)%nat -> py_slice 1 3 row = coordinate row.
Proof.
  destruct row as [| a [| b [| c rest]]]; cbn [length]; try lia. intros _.
  unfold py_slice, slice_index, coordinate.
  cbn [length Z.ltb Z.compare].
  replace (Z.min 1 _) with 1%Z by lia.
  replace (Z.min 3 _) with 3%Z by lia.
  reflexivity.
Qed.

End ArgmaxFacts.

Section CentreClaims.
Import Py Distances.
Local Open Scope R_scope.

(** C1.  For every sequence of N >= 1 cases, [find_outbreak_centre] returns
    the (x, y) coordinate of case [i], where (i, j) is the position of the
    maximum entry of the distance matrix: no entry is larger, and every
    entry that comes earlier in row-major order is strictly smaller.  The
    returned centre is therefore one of the input coordinates. *)
Theorem find_outbreak_centre_argmax (locations : list (list R)) :
  well_formed locations -> (1 <= length locations)%nat ->
  let N := length locations in
  exists (dm : list (list R)) (i j : nat) (p : list R),
    calculate_distance_matrix locations = Some dm /\
    (i < N)%nat /\ (j < N)%nat /\
    nth_error locations i = Some p /\
    find_outbreak_centre locations = Some [nth 1 p 0; nth 2 p 0] /\
    (forall i' j' : nat, (i' < N)%nat -> (j' < N)%nat ->
       entry dm i' j' <= entry dm i j) /\
    (forall i' j' : nat, (i' < N)%nat -> (j' < N)%nat ->
       (i' * N + j' < i * N + j)%nat -> entry dm i' j' < entry dm i j) /\
    In [nth 1 p 0; nth 2 p 0] (map coordinate locations).
Proof.
  intros Hwf HN N.
  set (dm := distance_rows locations).
  destruct (distance_rows_length locations) as [Hlen Hrows].
  fold dm N in Hlen, Hrows.
  pose proof (length_concat_rows N dm Hrows) as Hflat. rewrite Hlen in Hflat.
  destruct (np_argmax_spec dm) as [k [Hk [Hkl [Hmax Hfirst]]]].
  { rewrite Hflat. nia. }
  rewrite Hflat in Hkl, Hmax.
  set (i := (k / N)%nat). set (j := (k mod N)%nat).
  assert (N <> 0%nat) as HN0 by lia.
  assert (j < N)%nat as Hj by (apply Nat.mod_upper_bound; exact HN0).
  assert (k = (i * N + j)%nat) as Hkij.
  { unfold i, j. rewrite (Nat.div_mod_eq k N) at 1. lia. }
  assert (i < N)%nat as Hi by nia.
  assert (forall a b, (b < N)%nat ->
            nth (a * N + b) (concat dm) 0 = entry dm a b) as Hnth
    by (intros a b Hb; now apply nth_concat_rows).
  destruct (nth_error locations i) as [p |] eqn:Hp;
    [| apply nth_error_None in Hp; fold N in Hp; lia].
  assert (snd (shape dm) = N) as Hshape.
  { assert (forall m : list (list R),
              length m = N -> Forall (fun row => length row = N) m ->
              snd (shape m) = N) as Hs.
    { intros m Hl Hr. destruct Hr; [cbn [length] in Hl; lia | assumption]. }
    now apply Hs. }
  exists dm, i, j, p.
  split; [now apply calculate_distance_matrix_eq |].
  split; [exact Hi |]. split; [exact Hj |]. split; [exact Hp |].
  split; [| split; [| split]].
  - unfold find_outbreak_centre.
    rewrite calculate_distance_matrix_eq by exact Hwf. cbn [bind].
    fold dm. rewrite Hk. cbn [bind].
    unfold unravel_index. rewrite Hshape. cbn [fst]. fold i.
    rewrite Hp. cbn [bind]. rewrite py_slice_xy; [reflexivity |].
    unfold well_formed in Hwf. rewrite Forall_forall in Hwf.
    apply Hwf. eapply nth_error_In. exact Hp.
  - intros i' j' Hi' Hj'.
    rewrite <- (Hnth i' j' Hj'), <- (Hnth i j Hj), <- Hkij.
    apply Hmax. nia.
  - intros i' j' Hi' Hj' Hlt.
    rewrite <- (Hnth i' j' Hj'), <- (Hnth i j Hj), <- Hkij.
    apply Hfirst. lia.
  - apply in_map_iff. exists p. split; [reflexivity |].
    eapply nth_error_In. exact Hp.
Qed.

(** A concrete input meeting the hypotheses: the three
    cases (0,0), (300,0), (0,400). *)
Lemma find_outbreak_centre_argmax_witness :
  let locations := [[1; 0; 0]; [2; 300; 0]; [3; 0; 400]] in
  well_formed locations /\ (1 <= length locations)%nat /\
  exists (dm : list (list R)) (i j : nat) (p : list R),
    calculate_distance_matrix locations = Some dm /\
    (i < 3)%nat /\ (j < 3)%nat /\
    nth_error locations i = Some p /\
    find_outbreak_centre locations = Some [nth 1 p 0; nth 2 p 0] /\
    (forall i' j' : nat, (i' < 3)%nat -> (j' < 3)%nat ->
       entry dm i' j' <= entry dm i j) /\
    (forall i' j' : nat, (i' < 3)%nat -> (j' < 3)%nat ->
       (i' * 3 + j' < i * 3 + j)%nat -> entry dm i' j' < entry dm i j) /\
    In [nth 1 p 0; nth 2 p 0] (map coordinate locations).
Proof.
  intros locations.
  assert (well_formed locations) as Hwf by (repeat constructor).
  assert (1 <= length locations)%nat as HN by (cbn [length locations]; lia).
  split; [exact Hwf | split; [exact HN |]].
  exact (find_outbreak_centre_argmax locations Hwf HN).
Defined.

(** C8.  For a single case, [calculate_distance_matrix] returns the 1 x 1
    zero matrix, its maximum is 0, and [find_outbreak_centre] returns the
    (x, y) coordinate of that case. *)
Theorem single_case (row : list R) :
  (3 <= length row)%nat ->
  calculate_distance_matrix [row] = Some [[0]] /\
  (dm <- calculate_distance_matrix [row] ;; np_max dm) = Some 0 /\
  find_outbreak_centre [row] = Some [nth 1 row 0; nth 2 row 0].
Proof.
  intros Hrow.
  assert (well_formed [row]) as Hwf by (repeat constructor; exact Hrow).
  assert (calculate_distance_matrix [row] = Some [[0]]) as Hdm.
  { rewrite calculate_distance_matrix_eq by exact Hwf.
    unfold distance_rows. cbn [map]. now rewrite euclid_refl. }
  split; [exact Hdm |]. split.
  - rewrite Hdm. reflexivity.
  - unfold find_outbreak_centre. rewrite Hdm. cbn [bind].
    unfold np_argmax. cbn [concat app argmax_from bind].
    unfold unravel_index, shape. cbn [snd fst length Nat.div Nat.divmod].
    cbn [nth_error bind]. now rewrite py_slice_xy.
Qed.

(** A concrete input meeting the hypotheses: the single case (120, 340). *)
Lemma single_case_witness :
  (3 <= length [7; 120; 340])%nat /\
  calculate_distance_matrix [[7; 120; 340]] = Some [[0]] /\
  (dm <- calculate_distance_matrix [[7; 120; 340]] ;; np_max dm) = Some 0 /\
  find_outbreak_centre [[7; 120; 340]]
  = Some [nth 1 [7; 120; 340] 0; nth 2 [7; 120; 340] 0].
Proof.
  assert (3 <= length [7; 120; 340])%nat as Hrow by (cbn [length]; lia).
  split; [exact Hrow |].
  exact (single_case [7; 120; 340] Hrow).
Defined.

End CentreClaims.

(** * Further facts about the aggregator *)

Section SliceSemantics.
Import Py Aggregation.
Local Open Scope Q_scope.

(** The sum over any slice with a non-negative start: the stop is first
    resolved by [slice_index], which counts a negative stop from the end. *)
Lemma py_slice_sum_any {A : Type} (f : A -> Q) (s e : Z) (l : list A) :
  (0 <= s)%Z ->
  np_sum1 (map f (py_slice s e l)) ==
  sum_where f (half_open s (slice_index (Z.of_nat (length l)) e)) 0 l.
Proof.
  intros Hs. unfold py_slice.
  pose proof (slice_index_range (Z.of_nat (length l)) e ltac:(lia)) as He.
  set (len := Z.of_nat (length l)) in *.
  set (e' := slice_index len e) in *.
  assert (slice_index len s = Z.min s len) as ->.
  { unfold slice_index. destruct (Z.ltb_spec s 0); [lia | reflexivity]. }
  rewrite (sum_where_window f l _ _ 0%Z).
  apply sum_where_ext; [reflexivity |]. intros i Hi. unfold half_open.
  destruct (Z.leb_spec s i); destruct (Z.ltb_spec i e');
    destruct (Z.leb_spec (0 + Z.of_nat (Z.to_nat (Z.min s len))) i);
    destruct (Z.ltb_spec i (0 + Z.of_nat (Z.to_nat (Z.min s len))
                            + Z.of_nat (Z.to_nat (e' - Z.min s len))));
    try reflexivity; simpl; lia.
Qed.

Lemma py_slice_all {A : Type} (l : list A) :
  py_slice 0 (Z.of_nat (length l)) l = l.
Proof.
  unfold py_slice, slice_index.
  destruct (Z.ltb_spec 0 0); [lia |].
  destruct (Z.ltb_spec (Z.of_nat (length l)) 0); [lia |].
  replace (Z.min 0 (Z.of_nat (length l))) with 0%Z by lia.
  rewrite Z.min_id, Z.sub_0_r, Nat2Z.id. cbn [Z.to_nat skipn].
  apply firstn_all.
Qed.

Lemma rectangular_row {A : Type} (m : list (list A)) (row : list A) :
  rectangular m -> In row m -> length row = snd (shape m).
Proof.
  unfold rectangular. rewrite Forall_forall. intros H Hin. now apply H.
Qed.

End SliceSemantics.

Section SliceSemanticsTheorems.
Import Py Aggregation.
Local Open Scope Q_scope.

(** X1.  For every rectangular grid and every centre and distance, the
    result is the sum of the cells whose row index lies in
    [[start_i, stop_i)] and whose column index lies in [[start_j, stop_j)],
    where a stop is the end index when that is non-negative and
    [max(0, dimension + end index)] when it is negative. *)
Theorem find_affected_population_slices
    (m : list (list Q)) (c : Q * Q) (d : Q) :
  rectangular m ->
  let r := py_int (d / cell_size) in
  let rows := fst (shape m) in
  let cols := snd (shape m) in
  find_affected_population m c d ==
  sum_where
    (sum_where (fun v => v)
       (half_open (start_index (snd c) r)
          (slice_index (Z.of_nat cols) (end_index cols (snd c) r))) 0)
    (half_open (start_index (fst c) r)
       (slice_index (Z.of_nat rows) (end_index rows (fst c) r))) 0
    m.
Proof.
  intros Hrect r rows cols. rewrite find_affected_population_eq.
  fold r rows cols. cbv zeta. unfold slice2. rewrite np_sum_map.
  rewrite py_slice_sum_any by apply start_index_nonneg.
  apply sum_where_ext; [| reflexivity].
  intros row Hrow.
  rewrite <- (map_id (py_slice _ _ row)).
  rewrite py_slice_sum_any by apply start_index_nonneg.
  rewrite (rectangular_row m row Hrect Hrow). reflexivity.
Qed.

(** A concrete input meeting the hypothesis: a 2 x 2 grid with the centre
    two cells below the origin on the first axis. *)
Lemma find_affected_population_slices_witness :
  rectangular [[1; 1]; [1; 1]] /\
  find_affected_population [[1; 1]; [1; 1]] (-200, 0) 0 ==
  sum_where
    (sum_where (fun v => v)
       (half_open (start_index 0 (py_int (0 / cell_size)))
          (slice_index 2 (end_index 2 0 (py_int (0 / cell_size))))) 0)
    (half_open (start_index (-200) (py_int (0 / cell_size)))
       (slice_index 2 (end_index 2 (-200) (py_int (0 / cell_size))))) 0
    [[1; 1]; [1; 1]].
Proof.
  assert (rectangular [[1; 1]; [1; 1]]) as Hrect by (repeat constructor).
  split; [exact Hrect |].
  exact (find_affected_population_slices [[1; 1]; [1; 1]] (-200, 0) 0 Hrect).
Defined.

(** X2.  For every rectangular grid, if on both axes the start index is 0
    ([int(centre_cell - r) <= 0]) and the end index reaches the grid
    dimension ([int(centre_cell + r + 1) >= dimension]), the result is the
    sum of the whole grid. *)
Theorem find_affected_population_whole_grid
    (m : list (list Q)) (c : Q * Q) (d : Q) :
  rectangular m ->
  let r := inject_Z (py_int (d / cell_size)) in
  (py_int (fst c / cell_size - r) <= 0)%Z ->
  (Z.of_nat (fst (shape m)) <= py_int (fst c / cell_size + r + 1))%Z ->
  (py_int (snd c / cell_size - r) <= 0)%Z ->
  (Z.of_nat (snd (shape m)) <= py_int (snd c / cell_size + r + 1))%Z ->
  find_affected_population m c d == total_population m.
Proof.
  intros Hrect r Hsi Hei Hsj Hej.
  rewrite find_affected_population_eq. cbv zeta.
  unfold slice2, start_index, end_index, total_population. fold r.
  rewrite !Z.max_l by assumption. rewrite !Z.min_l by assumption.
  change (fst (shape m)) with (length m). rewrite py_slice_all.
  rewrite np_sum_map, np_sum_rows.
  apply np_sum1_map_eq. intros row Hrow.
  rewrite <- (rectangular_row m row Hrect Hrow). now rewrite py_slice_all.
Qed.

(** A concrete input meeting the hypotheses: a 2 x 2 grid, the centre in
    cell (0, 0) and a distance of two cells. *)
Lemma find_affected_population_whole_grid_witness :
  rectangular [[1; 2]; [3; 4]] /\
  find_affected_population [[1; 2]; [3; 4]] (50, 50) 200 ==
  total_population [[1; 2]; [3; 4]].
Proof.
  assert (rectangular [[1; 2]; [3; 4]]) as Hrect by (repeat constructor).
  split; [exact Hrect |].
  apply (find_affected_population_whole_grid
           [[1; 2]; [3; 4]] (50, 50) 200 Hrect);
    vm_compute; discriminate.
Defined.

(** A concrete input meeting the hypotheses of the monotonicity lemma away
    from wrap-around: distances 0 and 100 around an interior centre. *)
Lemma find_affected_population_monotone_no_wrap_witness :
  non_negative [[1; 2; 3]; [4; 5; 6]; [7; 8; 9]] /\ 0 <= 100 /\
  find_affected_population [[1; 2; 3]; [4; 5; 6]; [7; 8; 9]] (150, 250) 0 <=
  find_affected_population [[1; 2; 3]; [4; 5; 6]; [7; 8; 9]] (150, 250) 100.
Proof.
  assert (non_negative [[1; 2; 3]; [4; 5; 6]; [7; 8; 9]]) as Hm
    by (repeat constructor; discriminate).
  assert (0 <= 100) as Hd by discriminate.
  split; [exact Hm | split; [exact Hd |]].
  apply (find_affected_population_monotone_no_wrap
           [[1; 2; 3]; [4; 5; 6]; [7; 8; 9]] (150, 250) 0 100 Hm Hd);
    vm_compute; discriminate.
Defined.

End SliceSemanticsTheorems.

(** * Further facts about the distance matrix and the centre *)

Section LocatorFacts.
Import Py Distances.
Local Open Scope R_scope.

Lemma column_short (k : nat) (locations : list (list R)) :
  Exists (fun row => (length row <= k)%nat) locations ->
  column k locations = None.
Proof.
  induction 1 as [row rest Hrow | row rest _ IH]; cbn [column].
  - apply nth_error_None in Hrow. now rewrite Hrow.
  - rewrite IH. now destruct (nth_error row k).
Qed.

Lemma well_formed_dec (locations : list (list R)) :
  well_formed locations \/
  Exists (fun row => (length row < 3)%nat) locations.
Proof.
  unfold well_formed.
  destruct (Forall_Exists_dec (fun row : list R => (3 <= length row)%nat)
              (fun row => le_dec 3 (length row)) locations) as [H | H].
  - now left.
  - right. eapply Exists_impl; [| exact H]. cbv beta. intros row Hr. lia.
Qed.

Lemma fold_left_Rmax_spec (t : list R) :
  forall x : R,
    (forall v, In v (x :: t) -> v <= fold_left Rmax t x) /\
    In (fold_left Rmax t x) (x :: t).
Proof.
  induction t as [| a t IH]; intros x; cbn [fold_left].
  - split; [| now left]. intros v [<- | []]. apply Rle_refl.
  - destruct (IH (Rmax x a)) as [Hub Hin]. split.
    + intros v [Hv | [Hv | Hv]].
      * subst v. apply Rle_trans with (Rmax x a); [apply Rmax_l |].
        apply Hub. now left.
      * subst v. apply Rle_trans with (Rmax x a); [apply Rmax_r |].
        apply Hub. now left.
      * apply Hub. now right.
    + destruct Hin as [Hin | Hin].
      * rewrite <- Hin. unfold Rmax.
        destruct (Rle_dec x a); [right; now left | now left].
      * right. now right.
Qed.

(** [np.max] returns the entry at the position found by [np.argmax]. *)
Lemma np_max_at_argmax (m : list (list R)) (k : nat) :
  np_argmax m = Some k -> np_max m = Some (nth k (concat m) 0).
Proof.
  intros Hk.
  destruct (np_argmax_spec m) as [k' [Hk' [Hlt [Hmax _]]]].
  { unfold np_argmax in Hk. destruct (concat m); [discriminate |].
    cbn [length]. lia. }
  assert (k' = k) as -> by congruence.
  unfold np_max. destruct (concat m) as [| x t] eqn:Hc;
    [cbn [length] in Hlt; lia |].
  f_equal. destruct (fold_left_Rmax_spec t x) as [Hub Hin].
  apply Rle_antisym.
  - destruct (In_nth _ _ 0 Hin) as [n [Hn <-]]. now apply Hmax.
  - apply Hub. now apply nth_In.
Qed.

(** The position chosen by [find_outbreak_centre]: the flat index [k] of
    the first maximum, its row [k / N] and column [k mod N]. *)
Lemma argmax_position (locations : list (list R)) :
  well_formed locations -> (1 <= length locations)%nat ->
  let N := length locations in
  let dm := distance_rows locations in
  exists k : nat,
    np_argmax dm = Some k /\
    (k / N < N)%nat /\ (k mod N < N)%nat /\
    nth k (concat dm) 0 = entry dm (k / N) (k mod N) /\
    (forall a b : nat, (a < N)%nat -> (b < N)%nat ->
       entry dm a b <= entry dm (k / N) (k mod N)) /\
    (forall a b : nat, (a < N)%nat -> (b < N)%nat ->
       (a * N + b < k / N * N + k mod N)%nat ->
       entry dm a b < entry dm (k / N) (k mod N)) /\
    find_outbreak_centre locations =
    (row <- nth_error locations (k / N) ;; Some (py_slice 1 3 row)).
Proof.
  intros Hwf HN N dm.
  destruct (distance_rows_length locations) as [Hlen Hrows].
  fold dm N in Hlen, Hrows.
  pose proof (length_concat_rows N dm Hrows) as Hflat. rewrite Hlen in Hflat.
  destruct (np_argmax_spec dm) as [k [Hk [Hkl [Hmax Hfirst]]]].
  { rewrite Hflat. nia. }
  rewrite Hflat in Hkl, Hmax.
  assert (N <> 0%nat) as HN0 by lia.
  assert (k mod N < N)%nat as Hj by (apply Nat.mod_upper_bound; exact HN0).
  assert (k = (k / N * N + k mod N)%nat) as Hkij.
  { rewrite (Nat.div_mod_eq k N) at 1. lia. }
  assert (k / N < N)%nat as Hi by nia.
  assert (forall a b, (b < N)%nat ->
            nth (a * N + b) (concat dm) 0 = entry dm a b) as Hnth
    by (intros a b Hb; now apply nth_concat_rows).
  assert (snd (shape dm) = N) as Hshape.
  { assert (forall m : list (list R),
              length m = N -> Forall (fun row => length row = N) m ->
              snd (shape m) = N) as Hs.
    { intros m Hl Hr. destruct Hr; [cbn [length] in Hl; lia | assumption]. }
    now apply Hs. }
  exists k. split; [exact Hk |]. split; [exact Hi |]. split; [exact Hj |].
  split; [| split; [| split]].
  - rewrite Hkij at 1. now apply Hnth.
  - intros a b Ha Hb. rewrite <- (Hnth a b Hb), <- (Hnth _ _ Hj), <- Hkij.
    apply Hmax. nia.
  - intros a b Ha Hb Hlt. rewrite <- (Hnth a b Hb), <- (Hnth _ _ Hj), <- Hkij.
    apply Hfirst. lia.
  - unfold find_outbreak_centre.
    rewrite calculate_distance_matrix_eq by exact Hwf. cbn [bind].
    fold dm. rewrite Hk. cbn [bind].
    unfold unravel_index. rewrite Hshape. reflexivity.
Qed.

Lemma calculate_distance_matrix_short (locations : list (list R)) :
  Exists (fun row => (length row < 3)%nat) locations ->
  calculate_distance_matrix locations = None.
Proof.
  intros Hex. unfold calculate_distance_matrix.
  assert (column 2 locations = None) as H2.
  { apply column_short. eapply Exists_impl; [| exact Hex].
    cbv beta. intros row Hr. lia. }
  destruct (column 1 locations); cbn [bind]; [| reflexivity].
  now rewrite H2.
Qed.

(** In a rectangular array with a row, a short row means few columns. *)
Lemma short_row_iff (locations : list (list R)) :
  rectangular locations -> locations <> [] ->
  (Exists (fun row => (length row < 3)%nat) locations <->
   (snd (shape locations) < 3)%nat).
Proof.
  intros Hrect Hne. unfold rectangular in Hrect.
  rewrite Forall_forall in Hrect. split.
  - intros Hex. apply Exists_exists in Hex. destruct Hex as [row [Hin Hlt]].
    now rewrite <- (Hrect row Hin).
  - intros Hlt. destruct locations as [| p0 rest]; [contradiction |].
    apply Exists_cons_hd. exact Hlt.
Qed.

Lemma argmax_row_first (locations : list (list R)) (k : nat) :
  let N := length locations in
  let dm := distance_rows locations in
  (k / N < N)%nat -> (k mod N < N)%nat ->
  (forall a b : nat, (a < N)%nat -> (b < N)%nat ->
     (a * N + b < k / N * N + k mod N)%nat ->
     entry dm a b < entry dm (k / N) (k mod N)) ->
  (k / N <= k mod N)%nat.
Proof.
  intros N dm Hi Hj Hfirst.
  destruct (le_lt_dec (k / N) (k mod N)) as [Hle | Hlt]; [exact Hle |].
  exfalso.
  assert (entry dm (k mod N) (k / N) < entry dm (k / N) (k mod N)) as H.
  { apply Hfirst; try assumption. nia. }
  destruct (nth_error locations (k / N)) as [p |] eqn:Hp;
    [| apply nth_error_None in Hp; fold N in Hp; lia].
  destruct (nth_error locations (k mod N)) as [q |] eqn:Hq;
    [| apply nth_error_None in Hq; fold N in Hq; lia].
  unfold dm in H.
  rewrite (entry_distance_rows _ _ _ q p Hq Hp) in H.
  rewrite (entry_distance_rows _ _ _ p q Hp Hq) in H.
  rewrite (euclid_sym q p) in H. now apply Rlt_irrefl in H.
Qed.

Lemma distance_rows_coordinates (locations : list (list R)) :
  distance_rows locations =
  map (fun c1 => map (fun c2 => euclid (0 :: c1) (0 :: c2))
                     (map coordinate locations))
      (map coordinate locations).
Proof.
  unfold distance_rows. rewrite map_map. apply map_ext. intros p.
  rewrite map_map. apply map_ext. intros q. reflexivity.
Qed.

Lemma find_outbreak_centre_coordinates (locations : list (list R)) :
  well_formed locations ->
  find_outbreak_centre locations =
  (k <- np_argmax (distance_rows locations) ;;
   nth_error (map coordinate locations)
     (fst (unravel_index k (shape (distance_rows locations))))).
Proof.
  intros Hwf. unfold find_outbreak_centre.
  rewrite calculate_distance_matrix_eq by exact Hwf. cbn [bind].
  destruct (np_argmax (distance_rows locations)) as [k |]; cbn [bind];
    [| reflexivity].
  rewrite nth_error_map.
  destruct (nth_error locations _) as [row |] eqn:Hrow; cbn [bind option_map];
    [| reflexivity].
  rewrite py_slice_xy; [reflexivity |].
  unfold well_formed in Hwf. rewrite Forall_forall in Hwf.
  apply Hwf. eapply nth_error_In. exact Hrow.
Qed.

End LocatorFacts.

Section LocatorTheorems.
Import Py Distances.
Local Open Scope R_scope.

(** X5.  For a (rectangular) array with at least one row,
    [calculate_distance_matrix] fails with an index error exactly when the
    array has fewer than three columns. *)
Theorem calculate_distance_matrix_fails_iff (locations : list (list R)) :
  rectangular locations -> locations <> [] ->
  (calculate_distance_matrix locations = None <->
   (snd (shape locations) < 3)%nat).
Proof.
  intros Hrect Hne. rewrite <- (short_row_iff locations Hrect Hne). split.
  - intros H. destruct (well_formed_dec locations) as [Hwf | Hex];
      [| exact Hex].
    rewrite calculate_distance_matrix_eq in H by exact Hwf. discriminate.
  - apply calculate_distance_matrix_short.
Qed.

(** A concrete input meeting the hypotheses: one row with two columns. *)
Lemma calculate_distance_matrix_fails_iff_witness :
  rectangular [[1; 2]] /\ [[1; 2]] <> [] /\
  (calculate_distance_matrix [[1; 2]] = None <->
   (snd (shape [[1; 2]]) < 3)%nat).
Proof.
  assert (rectangular [[1; 2]]) as Hrect by (repeat constructor).
  assert ([[1; 2]] <> ([] : list (list R))) as Hne by discriminate.
  split; [exact Hrect | split; [exact Hne |]].
  exact (calculate_distance_matrix_fails_iff [[1; 2]] Hrect Hne).
Defined.

(** X6.  For a (rectangular) array, [find_outbreak_centre] fails exactly
    when there is no case at all (the maximum of an empty matrix is
    undefined) or the array has fewer than three columns. *)
Theorem find_outbreak_centre_fails_iff (locations : list (list R)) :
  rectangular locations ->
  (find_outbreak_centre locations = None <->
   locations = [] \/ (snd (shape locations) < 3)%nat).
Proof.
  intros Hrect.
  destruct locations as [| p0 rest] eqn:Hl.
  { split; [now left | reflexivity]. }
  rewrite <- Hl in *.
  assert (locations <> []) as Hne by (rewrite Hl; discriminate).
  rewrite <- (short_row_iff locations Hrect Hne). split.
  - intros H. destruct (well_formed_dec locations) as [Hwf | Hex];
      [| now right].
    exfalso.
    destruct (argmax_position locations Hwf ltac:(rewrite Hl; cbn [length]; lia))
      as [k [_ [Hi [_ [_ [_ [_ Hc]]]]]]].
    rewrite Hc in H.
    destruct (nth_error locations (k / length locations)) eqn:Hrow.
    + discriminate.
    + apply nth_error_None in Hrow. lia.
  - intros [He | Hex]; [contradiction |].
    unfold find_outbreak_centre.
    now rewrite (calculate_distance_matrix_short locations Hex).
Qed.

(** A concrete input meeting the hypothesis: an array without rows. *)
Lemma find_outbreak_centre_fails_iff_witness :
  rectangular ([] : list (list R)) /\
  (find_outbreak_centre [] = None <->
   ([] : list (list R)) = [] \/ (snd (shape ([] : list (list R))) < 3)%nat).
Proof.
  assert (rectangular ([] : list (list R))) as Hrect by constructor.
  split; [exact Hrect |].
  exact (find_outbreak_centre_fails_iff [] Hrect).
Defined.

(** X7.  For N >= 1 cases the maximum of the distance matrix exists, is
    non-negative and bounds every pairwise distance; it is the distance from
    the returned centre, case [i], to some case [j] that is not listed
    before it ([i <= j]).  So every case lies within the maximum distance of
    the centre. *)
Theorem max_distance_spec (locations : list (list R)) :
  well_formed locations -> (1 <= length locations)%nat ->
  exists (d : R) (i j : nat) (p q : list R),
    (dm <- calculate_distance_matrix locations ;; np_max dm) = Some d /\
    (i <= j < length locations)%nat /\
    nth_error locations i = Some p /\ nth_error locations j = Some q /\
    find_outbreak_centre locations = Some (coordinate p) /\
    euclid p q = d /\ 0 <= d /\
    forall (a b : nat) (pa pb : list R),
      nth_error locations a = Some pa -> nth_error locations b = Some pb ->
      euclid pa pb <= d.
Proof.
  intros Hwf HN.
  destruct (argmax_position locations Hwf HN)
    as [k [Hk [Hi [Hj [Hnth [Hmax [Hfirst Hc]]]]]]].
  pose proof (argmax_row_first locations k Hi Hj Hfirst) as Hij.
  set (N := length locations) in *.
  destruct (nth_error locations (k / N)) as [p |] eqn:Hp;
    [| apply nth_error_None in Hp; fold N in Hp; lia].
  destruct (nth_error locations (k mod N)) as [q |] eqn:Hq;
    [| apply nth_error_None in Hq; fold N in Hq; lia].
  exists (euclid p q), (k / N)%nat, (k mod N)%nat, p, q.
  split; [| split; [lia | split; [exact Hp | split; [exact Hq |]]]].
  - rewrite calculate_distance_matrix_eq by exact Hwf. cbn [bind].
    rewrite (np_max_at_argmax _ k Hk), Hnth.
    now rewrite (entry_distance_rows locations _ _ p q Hp Hq).
  - split; [| split; [reflexivity | split; [apply euclid_nonneg |]]].
    + rewrite Hc. cbn [bind]. rewrite py_slice_xy; [reflexivity |].
      unfold well_formed in Hwf. rewrite Forall_forall in Hwf.
      apply Hwf. eapply nth_error_In. exact Hp.
    + intros a b pa pb Ha Hb.
      assert (a < N)%nat as Ha' by (apply nth_error_Some; congruence).
      assert (b < N)%nat as Hb' by (apply nth_error_Some; congruence).
      specialize (Hmax a b Ha' Hb').
      rewrite (entry_distance_rows locations a b pa pb Ha Hb) in Hmax.
      now rewrite (entry_distance_rows locations _ _ p q Hp Hq) in Hmax.
Qed.

(** A concrete input meeting the hypotheses: the three cases (0,0),
    (300,0), (0,400). *)
Lemma max_distance_spec_witness :
  let locations := [[1; 0; 0]; [2; 300; 0]; [3; 0; 400]] in
  well_formed locations /\ (1 <= length locations)%nat /\
  exists (d : R) (i j : nat) (p q : list R),
    (dm <- calculate_distance_matrix locations ;; np_max dm) = Some d /\
    (i <= j < length locations)%nat /\
    nth_error locations i = Some p /\ nth_error locations j = Some q /\
    find_outbreak_centre locations = Some (coordinate p) /\
    euclid p q = d /\ 0 <= d /\
    forall (a b : nat) (pa pb : list R),
      nth_error locations a = Some pa -> nth_error locations b = Some pb ->
      euclid pa pb <= d.
Proof.
  intros locations.
  assert (well_formed locations) as Hwf by (repeat constructor).
  assert (1 <= length locations)%nat as HN by (cbn [length locations]; lia).
  split; [exact Hwf | split; [exact HN |]].
  exact (max_distance_spec locations Hwf HN).
Defined.

(** X10.  With exactly two cases the centre is the first one listed,
    whatever the coordinates: the result depends on the order of the
    rows. *)
Theorem find_outbreak_centre_two_cases (p q : list R) :
  (3 <= length p)%nat -> (3 <= length q)%nat ->
  find_outbreak_centre [p; q] = Some (coordinate p) /\
  find_outbreak_centre [q; p] = Some (coordinate q).
Proof.
  assert (forall u v : list R,
            (3 <= length u)%nat -> (3 <= length v)%nat ->
            find_outbreak_centre [u; v] = Some (coordinate u)) as Hfirst.
  { intros u v Hu Hv.
    assert (well_formed [u; v]) as Hwf by (repeat constructor; assumption).
    destruct (argmax_position [u; v] Hwf ltac:(cbn [length]; lia))
      as [k [_ [Hi [Hj [_ [_ [Hlt Hc]]]]]]].
    pose proof (argmax_row_first [u; v] k Hi Hj Hlt) as Hij.
    cbn [length] in *.
    assert (k / 2 = 0)%nat as Hrow.
    { destruct (Nat.eq_dec (k / 2) 0) as [H0 | Hne]; [exact H0 | exfalso].
      assert (k / 2 = 1)%nat as H1 by lia.
      assert (k mod 2 = 1)%nat as H2 by lia.
      specialize (Hlt 0%nat 0%nat ltac:(lia) ltac:(lia) ltac:(lia)).
      rewrite H1, H2 in Hlt.
      rewrite (entry_distance_rows [u; v] 0 0 u u eq_refl eq_refl) in Hlt.
      rewrite (entry_distance_rows [u; v] 1 1 v v eq_refl eq_refl) in Hlt.
      rewrite !euclid_refl in Hlt. now apply Rlt_irrefl in Hlt. }
    rewrite Hc, Hrow. cbn [nth_error bind]. now rewrite py_slice_xy. }
  intros Hp Hq. split; now apply Hfirst.
Qed.

(** A concrete input meeting the hypotheses: the cases (0,0) and (300,0). *)
Lemma find_outbreak_centre_two_cases_witness :
  (3 <= length [1; 0; 0])%nat /\ (3 <= length [2; 300; 0])%nat /\
  find_outbreak_centre [[1; 0; 0]; [2; 300; 0]]
  = Some (coordinate [1; 0; 0]) /\
  find_outbreak_centre [[2; 300; 0]; [1; 0; 0]]
  = Some (coordinate [2; 300; 0]).
Proof.
  assert (3 <= length [1; 0; 0])%nat as Hp by (cbn [length]; lia).
  assert (3 <= length [2; 300; 0])%nat as Hq by (cbn [length]; lia).
  split; [exact Hp | split; [exact Hq |]].
  exact (find_outbreak_centre_two_cases [1; 0; 0] [2; 300; 0] Hp Hq).
Defined.

(** X11.  The distance matrix and the centre depend only on columns 1 and
    2: two arrays of cases with the same (x, y) coordinates, whatever their
    identifiers and further columns, give the same results. *)
Theorem results_depend_on_coordinates_only (l1 l2 : list (list R)) :
  well_formed l1 -> well_formed l2 ->
  map coordinate l1 = map coordinate l2 ->
  calculate_distance_matrix l1 = calculate_distance_matrix l2 /\
  find_outbreak_centre l1 = find_outbreak_centre l2.
Proof.
  intros H1 H2 Hc.
  assert (distance_rows l1 = distance_rows l2) as Hdm
    by (now rewrite !distance_rows_coordinates, Hc).
  split.
  - now rewrite !calculate_distance_matrix_eq, Hdm by assumption.
  - now rewrite !find_outbreak_centre_coordinates, Hdm, Hc by assumption.
Qed.

(** A concrete input meeting the hypotheses: the same two places with
    different identifiers and an extra column. *)
Lemma results_depend_on_coordinates_only_witness :
  let l1 := [[1; 0; 0]; [2; 300; 0]] in
  let l2 := [[7; 0; 0; 5]; [9; 300; 0; 6]] in
  well_formed l1 /\ well_formed l2 /\
  map coordinate l1 = map coordinate l2 /\
  calculate_distance_matrix l1 = calculate_distance_matrix l2 /\
  find_outbreak_centre l1 = find_outbreak_centre l2.
Proof.
  intros l1 l2.
  assert (well_formed l1) as H1 by (repeat constructor).
  assert (well_formed l2) as H2 by (repeat constructor).
  assert (map coordinate l1 = map coordinate l2) as Hc by reflexivity.
  split; [exact H1 | split; [exact H2 | split; [exact Hc |]]].
  exact (results_depend_on_coordinates_only l1 l2 H1 H2 Hc).
Defined.

End LocatorTheorems.

(** * Facts about the plot *)

Section PlotTheorems.
Import Py Aggregation Plotting.
Local Open Scope Q_scope.

Lemma np_where_nonpos_entries (m : list (list Q)) :
  Forall2
    (Forall2 (fun v' v => 0 < v' /\ (0 < v -> v' = v) /\ (v <= 0 -> v' = 1)))
    (np_where_nonpos m) m.
Proof.
  unfold np_where_nonpos.
  induction m as [| row m IH]; cbn [map]; constructor; [| exact IH].
  clear IH. induction row as [| v row IH]; cbn [map]; constructor;
    [| exact IH].
  destruct (Qle_bool v 0) eqn:Hv.
  - apply Qle_bool_iff in Hv. repeat split.
    + intros Hpos. exfalso. apply (Qlt_irrefl 0).
      now apply Qlt_le_trans with v.
  - assert (0 < v) as Hpos.
    { apply Qnot_le_lt. intros Hle. apply Qle_bool_iff in Hle. congruence. }
    repeat split; [exact Hpos |].
    intros Hle. exfalso. apply (Qlt_irrefl 0).
    now apply Qlt_le_trans with v.
Qed.

(** X12.  The first call of [plot_population] is [imshow] on a matrix of
    the shape of the population grid in which every entry is strictly
    positive (so its logarithm is defined): positive entries are kept, zero
    and negative ones are drawn as 1. *)
Theorem plot_population_log_safe
    (m : list (list Q)) (c : Q * Q) (output_dir fig_name : option String.string) :
  exists (m' : list (list Q)) (rest : list call),
    plot_population m c output_dir fig_name = imshow m' :: rest /\
    Forall2
      (Forall2 (fun v' v => 0 < v' /\ (0 < v -> v' = v) /\ (v <= 0 -> v' = 1)))
      m' m.
Proof.
  unfold plot_population. eexists. eexists.
  split; [reflexivity | apply np_where_nonpos_entries].
Qed.

End PlotTheorems.
